(** * Media library: classifier, catalog store, ingestion and range streaming

    A shallow embedding of [youtube_manager.py] (class
    [YouTubeDownloadManager]) and of the streaming endpoints of
    [web_interface.py], followed by the properties proved about them.

    Conventions of the embedding.
    - A Python [dict] used as a record of metadata is a Rocq record whose
      fields are [field T]: the key is absent, maps to [None], or maps to
      a value of the type the catalog schema gives the column.
    - Code that can raise returns [result A]; the constructors of [exn]
      are the Python exception classes that the modelled code can meet.
    - The catalog is the four tables of [setup_database], each a list of
      rows in rowid order, with the [sqlite_sequence] counters of the
      AUTOINCREMENT tables.
    - The external extractor ([yt_dlp]), the creation of the output
      directory and the clock are Section variables of the ingestion
      code. *)

From Stdlib Require Import ZArith List String Ascii Bool Lia.
From Stdlib Require Import Strings.Byte.
Import ListNotations.

Open Scope string_scope.
Open Scope list_scope.
Open Scope Z_scope.

(* ================================================================== *)
(** * Python values, dictionaries and exceptions *)
(* ================================================================== *)

(** The exception classes met by the modelled code.  [HTTPException]
    carries its [status_code]; its [detail] text is presentational and
    is not modelled. *)
Inductive exn : Type :=
| TypeError
| ValueError
| IndexError
| OSError
| OverflowError
| OperationalError
| IntegrityError
| HTTPException (status_code : Z).

Inductive result (A : Type) : Type :=
| Ok (a : A)
| Raise (e : exn).
Arguments Ok {A} a.
Arguments Raise {A} e.

Definition rbind {A B : Type} (m : result A) (k : A -> result B) : result B :=
  match m with
  | Ok a => k a
  | Raise e => Raise e
  end.

Declare Scope result_scope.
Delimit Scope result_scope with result.
Notation "'let?' x ':=' m 'in' k" :=
  (rbind m (fun x => k))
    (at level 10, x name, m at level 100, k at level 200) : result_scope.
Notation "'let?' ' p ':=' m 'in' k" :=
  (rbind m (fun x => match x with p => k end))
    (at level 10, p pattern, m at level 100, k at level 200) : result_scope.

(** The state of a key of a Python dictionary. *)
Inductive field (T : Type) : Type :=
| Absent
| Null
| Val (t : T).
Arguments Absent {T}.
Arguments Null {T}.
Arguments Val {T} t.

(** [d.get(k)]: [None] stands for Python's [None]. *)
Definition get {T : Type} (f : field T) : option T :=
  match f with
  | Val t => Some t
  | _ => None
  end.

(** [d.get(k, default)]. *)
Definition get_default {T : Type} (f : field T) (default : T) : option T :=
  match f with
  | Absent => Some default
  | Null => None
  | Val t => Some t
  end.

(** A dictionary entry built from the result of a [get]. *)
Definition field_of {T : Type} (o : option T) : field T :=
  match o with
  | Some t => Val t
  | None => Null
  end.

(** The values that flow through the boolean operators of the
    classifier: [None], a [bool] or an [int]. *)
Inductive value : Type :=
| VNone
| VBool (b : bool)
| VInt (z : Z).

Definition of_int (o : option Z) : value :=
  match o with
  | Some z => VInt z
  | None => VNone
  end.

(** Python truthiness. *)
Definition truthy (v : value) : bool :=
  match v with
  | VNone => false
  | VBool b => b
  | VInt z => negb (z =? 0)
  end.

(** The integer a [bool] or [int] compares as; ordering [None] raises. *)
Definition as_number (v : value) : result Z :=
  match v with
  | VNone => Raise TypeError
  | VBool b => Ok (if b then 1 else 0)
  | VInt z => Ok z
  end.

(** [a <= b] and [a > b]. *)
Definition py_le (a b : value) : result value :=
  (let? x := as_number a in
   let? y := as_number b in
   Ok (VBool (x <=? y)))%result.

Definition py_gt (a b : value) : result value :=
  (let? x := as_number a in
   let? y := as_number b in
   Ok (VBool (x >? y)))%result.

(** [needle in hay] on [str]. *)
Fixpoint contains (needle hay : string) : bool :=
  String.prefix needle hay
  || match hay with
     | EmptyString => false
     | String _ rest => contains needle rest
     end.

(* ================================================================== *)
(** * The metadata record of the extractor *)
(* ================================================================== *)

(** The keys of the extractor's [info] dictionary that the code reads. *)
Record info : Type := mk_info {
  info_id : field string;
  info_title : field string;
  info_uploader : field string;
  info_upload_date : field string;
  info_duration : field Z;
  info_description : field string;
  info_view_count : field Z;
  info_thumbnail : field string;
  info_width : field Z;
  info_height : field Z;
  info_web_page_url : field string
}.

(* ================================================================== *)
(** * Classifier: [is_youtube_short] *)
(* ================================================================== *)

Definition shorts_marker : string := "/shorts/".

Definition is_youtube_short (i : info) : result value :=
  let duration := of_int (get_default (info_duration i) 0) in
  let width := of_int (get_default (info_width i) 0) in
  let height := of_int (get_default (info_height i) 0) in
  (* is_short_duration = duration and duration <= 60 *)
  (let? is_short_duration :=
     if truthy duration then py_le duration (VInt 60) else Ok duration in
   (* is_vertical = height > width if (height and width) else False *)
   let? is_vertical :=
     if truthy (if truthy height then width else height)
     then py_gt height width
     else Ok (VBool false) in
   (* url = info.get('web_page_url', ''); is_short_url = '/shorts/' in url *)
   match get_default (info_web_page_url i) "" with
   | None => Raise TypeError
   | Some url =>
       let is_short_url := contains shorts_marker url in
       (* is_short_url or (is_short_duration and is_vertical) *)
       Ok (if is_short_url then VBool true
           else if truthy is_short_duration then is_vertical
                else is_short_duration)
   end)%result.

(** The rule of the classifier in the words of its specification, for a
    record without the URL marker: duration known, nonzero and at most
    60 seconds, both dimensions known and nonzero, height above width. *)
Definition short_by_shape (i : info) : bool :=
  match get (info_duration i), get (info_width i), get (info_height i) with
  | Some d, Some w, Some h =>
      negb (d =? 0) && (d <=? 60) && negb (w =? 0) && negb (h =? 0) && (w <? h)
  | _, _, _ => false
  end.

(* ================================================================== *)
(** * Strings and integers: [str.replace], [str.split], [int], [str] *)
(* ================================================================== *)

(** [s.replace(old, '')] for a non-empty [old]: the occurrences of [old]
    are removed, scanning from the left without overlap.  [skip] counts
    the characters of a match that are still to be dropped. *)
Fixpoint remove_from (old : string) (skip : nat) (s : string) : string :=
  match s with
  | EmptyString => EmptyString
  | String c rest =>
      match skip with
      | S k => remove_from old k rest
      | O =>
          if String.prefix old s
          then remove_from old (Nat.pred (String.length old)) rest
          else String c (remove_from old O rest)
      end
  end.

Definition remove_all (old s : string) : string := remove_from old O s.

(** [s.split(sep)] for a one-character separator. *)
Fixpoint split_on (sep : ascii) (s : string) : list string :=
  match s with
  | EmptyString => [EmptyString]
  | String c rest =>
      if Ascii.eqb c sep then EmptyString :: split_on sep rest
      else match split_on sep rest with
           | piece :: pieces => String c piece :: pieces
           | [] => [String c EmptyString]
           end
  end.

(** [l[i]] on a list: out of range raises [IndexError]. *)
Definition item {A : Type} (l : list A) (i : nat) : result A :=
  match nth_error l i with
  | Some a => Ok a
  | None => Raise IndexError
  end.

Definition is_digit (c : ascii) : bool :=
  let n := nat_of_ascii c in (48 <=? n)%nat && (n <=? 57)%nat.

Definition digit_value (c : ascii) : Z := Z.of_nat (nat_of_ascii c) - 48.

(** The characters that [int] strips as white space, among the code
    points below 256 (a header value is decoded as Latin-1): tab to
    carriage return, the four separators, the space, NEL and the
    no-break space. *)
Definition is_space (c : ascii) : bool :=
  let n := nat_of_ascii c in
  ((9 <=? n)%nat && (n <=? 13)%nat) || ((28 <=? n)%nat && (n <=? 32)%nat)
  || (n =? 133)%nat || (n =? 160)%nat.

Fixpoint lstrip (l : list ascii) : list ascii :=
  match l with
  | c :: rest => if is_space c then lstrip rest else l
  | [] => []
  end.

Definition strip (l : list ascii) : list ascii := rev (lstrip (rev (lstrip l))).

(** The digits of a decimal literal, with single underscores allowed
    between digits.  [after_digit] tells whether the previous character
    was a digit. *)
Fixpoint literal_value (acc : Z) (after_digit : bool) (l : list ascii)
  : option Z :=
  match l with
  | [] => if after_digit then Some acc else None
  | c :: rest =>
      if is_digit c then literal_value (acc * 10 + digit_value c) true rest
      else if Ascii.eqb c "_" && after_digit then literal_value acc false rest
      else None
  end.

(** [int(s)] on a [str] of code points below 256: surrounding white
    space, an optional sign, decimal digits.  A [str] that is not a
    literal raises [ValueError].  The interpreter also refuses, with the
    same exception, a literal of more than 4300 digits, and [str] an
    integer of more than 4300 digits: [int] and [str] below are the
    functions under that limit, and the statements about a header that
    is not built from the size of a file bound its length or its
    numbers accordingly. *)
Definition int (s : string) : result Z :=
  let body := strip (list_ascii_of_string s) in
  let parsed :=
    match body with
    | sign :: digits =>
        if Ascii.eqb sign "-" then option_map Z.opp (literal_value 0 false digits)
        else if Ascii.eqb sign "+" then literal_value 0 false digits
        else literal_value 0 false body
    | [] => None
    end in
  match parsed with
  | Some z => Ok z
  | None => Raise ValueError
  end.

Definition digit_char (d : Z) : ascii := ascii_of_nat (48 + Z.to_nat d).

(** The decimal digits of [n >= 0], least significant first. *)
Fixpoint digits_of (fuel : nat) (n : Z) : list ascii :=
  match fuel with
  | O => []
  | S fuel' =>
      digit_char (n mod 10)
      :: (if n <? 10 then [] else digits_of fuel' (n / 10))
  end.

Definition str_nonneg (n : Z) : string :=
  string_of_list_ascii (rev (digits_of (S (Z.to_nat (Z.log2 n))) n)).

(** [str(n)] on an [int]. *)
Definition str (n : Z) : string :=
  if n <? 0 then String "-" (str_nonneg (- n)) else str_nonneg n.

(* ================================================================== *)
(** * Catalog store: the schema of [setup_database] *)
(* ================================================================== *)

(** A row of [videos].  [video_id] and [title] are [NOT NULL]; the other
    columns hold [NULL] ([None]) or a value of the column's type.
    [is_short] is a [BOOLEAN] column: it stores an integer. *)
Record video_row : Type := mk_video_row {
  v_id : Z;
  v_video_id : string;
  v_title : string;
  v_uploader : option string;
  v_upload_date : option string;
  v_duration : option Z;
  v_description : option string;
  v_view_count : option Z;
  v_is_short : option Z;
  v_file_path : option string;
  v_thumbnail_path : option string;
  v_download_date : option string;
  v_original_url : option string;
  v_status : option string
}.

Record tag_row : Type := mk_tag_row {
  t_id : Z;
  t_video_id : Z;
  t_tag : string
}.

Record playlist_row : Type := mk_playlist_row {
  p_id : Z;
  p_playlist_id : option string;
  p_name : string;
  p_description : option string;
  p_created_date : option string
}.

Record playlist_item_row : Type := mk_playlist_item_row {
  pi_playlist_id : Z;
  pi_videos_id : Z;
  pi_position : Z
}.

(** The database file: every table in rowid order, and for each
    AUTOINCREMENT table the largest rowid it ever held
    ([sqlite_sequence]).  Foreign keys are declared but not enforced: no
    connection of the program turns the pragma on. *)
Record database : Type := mk_database {
  videos : list video_row;
  videos_seq : Z;
  tags : list tag_row;
  tags_seq : Z;
  playlists : list playlist_row;
  playlists_seq : Z;
  playlist_items : list playlist_item_row
}.

Definition empty_database : database := mk_database [] 0 [] 0 [] 0 [].

(** Operations on the database: state passing, with exceptions.  A
    statement that raises leaves the database as it was. *)
Definition db_op (A : Type) : Type := database -> result A * database.

(** The rowid an AUTOINCREMENT table gives a new row: one more than the
    largest rowid that the table holds or ever held. *)
Definition next_rowid (seq : Z) (ids : list Z) : Z :=
  Z.max seq (fold_right Z.max 0 ids) + 1.

(** The tokenizer on string literals: every ['] opens or closes a
    literal (['']inside a literal closes and reopens it), and a statement
    that ends inside a literal is rejected.  The statements of the
    program hold no other quoting and no comments. *)
Fixpoint literals_closed (in_literal : bool) (sql : string) : bool :=
  match sql with
  | EmptyString => negb in_literal
  | String c rest =>
      if Ascii.eqb c "'" then literals_closed (negb in_literal) rest
      else literals_closed in_literal rest
  end.

(** [cursor.execute(sql, ...)]: a statement that is not well formed
    raises [sqlite3.OperationalError]. *)
Definition execute (sql : string) : result unit :=
  if literals_closed false sql then Ok tt else Raise OperationalError.

Definition sql_insert_video : string := "
            INSERT OR REPLACE INTO videos 
            (video_id, title, uploader, upload_date, duration, description, 
             view_count, is_short, file_path, thumbnail_path, download_date, 
             original_url, status)
            VALUES (?, ?, ?, ?, ?, ?, ?, ?, ?, ?, ?, ?, ?)
        ".

Definition sql_insert_tag : string := "
                INSERT INTO tags (video_id, tag)
                VALUES (?, ?)
            ".

Definition sql_insert_playlist : string := "
            INSERT OR IGNORE INTO playlists (playlist_id, name, description, created_date)
            VALUES (?, ?, ?, ?)
        ".

Definition sql_select_playlist : string :=
  "SELECT id FROM playlists WHERE playlist_id = ?".

Definition sql_insert_playlist_item : string := "
                    INSERT INTO playlist_items (playlist_id, videos_id, position)
                    VALUES (?, ?, ?)
                ".

Definition sql_select_completed : string :=
  "SELECT * FROM videos WHERE status = 'completed'".

Definition sql_select_completed_short : string :=
  "SELECT * FROM videos WHERE status = 'completed' AND is_short = ?".

Definition sql_search_videos : string := "
            SELECT * FROM videos
            WHERE (title LIKE ? OR uploader LIKE ?)
            AND status = 'completed
        ".

Definition sql_select_file_path : string :=
  "SELECT file_path FROM videos WHERE id = ?".

(* ================================================================== *)
(** * Catalog store: [save_to_database] *)
(* ================================================================== *)

(** The [video_data] dictionary. *)
Record video_data : Type := mk_video_data {
  vd_video_id : field string;
  vd_title : field string;
  vd_uploader : field string;
  vd_upload_date : field string;
  vd_duration : field Z;
  vd_description : field string;
  vd_view_count : field Z;
  vd_is_short : field value;
  vd_file_path : field string;
  vd_thumbnail_path : field string;
  vd_download_date : field string;
  vd_original_url : field string;
  vd_status : field string
}.

(** How a flag is bound to a statement: [None] as [NULL], a [bool] as 0
    or 1, an [int] as itself. *)
Definition adapt_flag (v : option value) : option Z :=
  match v with
  | Some (VBool b) => Some (if b then 1 else 0)
  | Some (VInt z) => Some z
  | Some VNone | None => None
  end.

(** An [int] can be bound to a statement when it fits a signed 64-bit
    integer; any other raises [OverflowError] before the statement
    runs. *)
Definition int64 (z : Z) : bool :=
  (- 2 ^ 63 <=? z) && (z <? 2 ^ 63).

Definition bindable_int (o : option Z) : bool :=
  match o with
  | Some z => int64 z
  | None => true
  end.

(** The integers among the thirteen parameters of the INSERT. *)
Definition bindable (vd : video_data) : bool :=
  bindable_int (get (vd_duration vd))
  && bindable_int (get (vd_view_count vd))
  && bindable_int (adapt_flag (get_default (vd_is_short vd) (VBool false))).

(** The row that the INSERT of [save_to_database] writes under rowid
    [rowid], when the two [NOT NULL] columns are given. *)
Definition video_row_of (rowid : Z) (video_id title : string)
                        (vd : video_data) : video_row :=
  {| v_id := rowid;
     v_video_id := video_id;
     v_title := title;
     v_uploader := get (vd_uploader vd);
     v_upload_date := get (vd_upload_date vd);
     v_duration := get (vd_duration vd);
     v_description := get (vd_description vd);
     v_view_count := get (vd_view_count vd);
     v_is_short := adapt_flag (get_default (vd_is_short vd) (VBool false));
     v_file_path := get (vd_file_path vd);
     v_thumbnail_path := get (vd_thumbnail_path vd);
     v_download_date := get (vd_download_date vd);
     v_original_url := get (vd_original_url vd);
     v_status := get_default (vd_status vd) "completed" |}.

(** [INSERT OR REPLACE INTO videos]: the parameters are bound first (an
    integer outside 64 bits raises [OverflowError]); a [NULL] in a
    [NOT NULL] column without default aborts with
    [sqlite3.IntegrityError]; a row holding the same [video_id] (the
    [UNIQUE] column) is deleted; the new row gets a fresh rowid, which
    is [cursor.lastrowid]. *)
Definition insert_or_replace_video (vd : video_data) : db_op Z :=
  fun db =>
    match execute sql_insert_video with
    | Raise e => (Raise e, db)
    | Ok _ =>
        if negb (bindable vd) then (Raise OverflowError, db) else
        match get (vd_video_id vd), get (vd_title vd) with
        | Some video_id, Some title =>
            let rowid := next_rowid (videos_seq db) (map v_id (videos db)) in
            let kept :=
              filter (fun r => negb (String.eqb (v_video_id r) video_id))
                     (videos db) in
            (Ok rowid,
             mk_database (kept ++ [video_row_of rowid video_id title vd])
                         rowid
                         (tags db) (tags_seq db)
                         (playlists db) (playlists_seq db)
                         (playlist_items db))
        | _, _ => (Raise IntegrityError, db)
        end
    end.

(** [INSERT INTO tags (video_id, tag)]. *)
Definition insert_tag (video_db_id : Z) (tag : string) : db_op unit :=
  fun db =>
    match execute sql_insert_tag with
    | Raise e => (Raise e, db)
    | Ok _ =>
        let rowid := next_rowid (tags_seq db) (map t_id (tags db)) in
        (Ok tt,
         mk_database (videos db) (videos_seq db)
                     (tags db ++ [mk_tag_row rowid video_db_id tag]) rowid
                     (playlists db) (playlists_seq db)
                     (playlist_items db))
    end.

(** [for tag in all_tags: cursor.execute(...)]. *)
Fixpoint insert_tags (video_db_id : Z) (all_tags : list string) : db_op unit :=
  fun db =>
    match all_tags with
    | [] => (Ok tt, db)
    | tag :: rest =>
        match insert_tag video_db_id tag db with
        | (Ok _, db') => insert_tags video_db_id rest db'
        | (Raise e, _) => (Raise e, db)
        end
    end.

(** The tags of [save_to_database]: the default tag, then the caller's
    ([if tags:] holds for a non-empty list). *)
Definition all_tags (tags : option (list string)) : list string :=
  "YouTube" :: match tags with
               | Some ts => ts
               | None => []
               end.

(** [save_to_database]: the INSERT and the tag rows are one transaction,
    committed at the end; an exception leaves the database unchanged. *)
Definition save_to_database (vd : video_data) (tags : option (list string))
                            (playlist_name : option string) : db_op Z :=
  fun db =>
    match insert_or_replace_video vd db with
    | (Raise e, _) => (Raise e, db)
    | (Ok video_db_id, db1) =>
        match insert_tags video_db_id (all_tags tags) db1 with
        | (Raise e, _) => (Raise e, db)
        | (Ok _, db2) => (Ok video_db_id, db2)
        end
    end.

(* ================================================================== *)
(** * Catalog store: [get_all_videos] and [search_videos] *)
(* ================================================================== *)

Definition completed (r : video_row) : bool :=
  match v_status r with
  | Some status => String.eqb status "completed"
  | None => false
  end.

(** [is_short = ?] with a [bool] bound as 0 or 1; [NULL] equals nothing. *)
Definition is_short_is (flag : bool) (r : video_row) : bool :=
  match v_is_short r with
  | Some z => z =? (if flag then 1 else 0)
  | None => false
  end.

Definition get_all_videos (is_short : option bool) (db : database)
  : result (list video_row) :=
  match is_short with
  | None =>
      (let? _ := execute sql_select_completed in
       Ok (filter completed (videos db)))%result
  | Some flag =>
      (let? _ := execute sql_select_completed_short in
       Ok (filter (fun r => completed r && is_short_is flag r) (videos db)))%result
  end.

Definition lower (c : ascii) : ascii :=
  let n := nat_of_ascii c in
  if (65 <=? n)%nat && (n <=? 90)%nat then ascii_of_nat (n + 32) else c.

(** [text LIKE pattern]: [%] matches any run of characters, [_] any one
    character, a letter matches in either case. *)
Fixpoint like (pattern text : list ascii) : bool :=
  match pattern with
  | [] => match text with [] => true | _ :: _ => false end
  | c :: pattern' =>
      if Ascii.eqb c "%" then
        (fix any (t : list ascii) : bool :=
           like pattern' t
           || match t with
              | [] => false
              | _ :: t' => any t'
              end) text
      else
        match text with
        | [] => false
        | d :: text' =>
            (Ascii.eqb c "_" || Ascii.eqb (lower c) (lower d))
            && like pattern' text'
        end
  end.

Definition sql_like (column : option string) (pattern : string) : bool :=
  match column with
  | Some text => like (list_ascii_of_string pattern) (list_ascii_of_string text)
  | None => false
  end.

Definition search_videos (query : string) (db : database)
  : result (list video_row) :=
  let pattern := ("%" ++ query ++ "%")%string in
  (let? _ := execute sql_search_videos in
   Ok (filter (fun r => (sql_like (Some (v_title r)) pattern
                         || sql_like (v_uploader r) pattern)
                        && completed r)
              (videos db)))%result.

(* ================================================================== *)
(** * Files and HTTP responses *)
(* ================================================================== *)

(** The files on disk: the content of the regular file at a path, or
    [None] when nothing exists there.  [pathlib.Path] and [str] of a path
    keep the file a path denotes and are the identity of the model. *)
Definition filesystem : Type := string -> option (list byte).

(** The generator run to exhaustion: the chunks it yields, or the
    exception raised by a [seek] to a negative offset before any chunk.
    A [seek] far beyond the end of the file can raise as well (from an
    offset that depends on the file system, [2^63 - 1] at most): the
    model is that of the offsets up to the size of the file, and the
    statements about the body keep the start there. *)
Definition chunks : Type := result (list (list byte)).

Inductive response : Type :=
| StreamingResponse (content : chunks) (status_code : Z)
                    (headers : list (string * string))
| FileResponse (path : string) (media_type : string)
               (headers : list (string * string)).

(** The status line the framework sends: a returned response has its own
    status ([FileResponse] answers 200), a raised [HTTPException] its
    [status_code], any other exception an internal server error. *)
Definition http_status (r : result response) : Z :=
  match r with
  | Ok (StreamingResponse _ status_code _) => status_code
  | Ok (FileResponse _ _ _) => 200
  | Raise (HTTPException status_code) => status_code
  | Raise _ => 500
  end.

(** [try: body  except Exception as e: handler(e)].  Every class of [exn],
    [HTTPException] included, derives from [Exception]. *)
Definition try_except {A : Type} (body : result A) (handler : exn -> result A)
  : result A :=
  match body with
  | Ok a => Ok a
  | Raise e => handler e
  end.

(** The loop of [iterfile]: [f] is the file from the current offset on;
    [f.read(k)] returns the next [k] bytes, fewer at the end of the file.
    Every round that goes on consumes a byte of [f], whose length bounds
    the number of rounds. *)
Fixpoint iterfile_loop (fuel : nat) (f : list byte) (remaining : Z)
  : list (list byte) :=
  match fuel with
  | O => []
  | S fuel' =>
      if remaining >? 0 then
        let chunk := firstn (Z.to_nat (Z.min 8192 remaining)) f in
        match chunk with
        | [] => []
        | _ :: _ =>
            chunk :: iterfile_loop fuel' (skipn (List.length chunk) f)
                                   (remaining - Z.of_nat (List.length chunk))
        end
      else []
  end.

Definition iterfile (content : list byte) (start chunk_size : Z) : chunks :=
  if start <? 0 then Raise ValueError
  else
    let f := skipn (Z.to_nat start) content in
    Ok (iterfile_loop (S (List.length f)) f chunk_size).

(** The parsing of the range header in [stream_video]. *)
Definition parse_range (range_header : string) (file_size : Z)
  : result (Z * Z) :=
  let range_match := split_on "-" (remove_all "bytes=" range_header) in
  (let? first := item range_match 0 in
   let? start := int first in
   let? second := item range_match 1 in
   let? end_ :=
     match second with
     | EmptyString => Ok (file_size - 1)
     | _ => int second
     end in
   Ok (start, end_))%result.

Definition nonempty (s : string) : bool :=
  match s with
  | EmptyString => false
  | String _ _ => true
  end.

Definition stream_video (fs : filesystem) (file_path : string)
                        (range_header : option string) : result response :=
  try_except
    (match fs file_path with
     | None => Raise (HTTPException 404)
     | Some content =>
         let file_size := Z.of_nat (List.length content) in
         match range_header with
         | Some h =>
             if nonempty h then
               (let? '(start, end_) := parse_range h file_size in
                let chunk_size := end_ - start + 1 in
                let headers :=
                  [ ("Content-Range",
                     "bytes " ++ str start ++ "-" ++ str end_
                     ++ "/" ++ str file_size)%string;
                    ("Accept-Ranges", "bytes");
                    ("Content-Length", str chunk_size);
                    ("Content-Type", "video/mp4") ] in
                Ok (StreamingResponse (iterfile content start chunk_size)
                                      206 headers))%result
             else
               Ok (FileResponse file_path "video/mp4"
                                [("Accept-Ranges", "bytes")])
         | None =>
             Ok (FileResponse file_path "video/mp4"
                              [("Accept-Ranges", "bytes")])
         end
     end)
    (fun e => Raise (HTTPException 500)).

Definition stream_by_id (db : database) (fs : filesystem) (video_id : Z)
                        (range_header : option string) : result response :=
  try_except
    (let? _ := execute sql_select_file_path in
     (* result = cursor.fetchone() *)
     match find (fun r => v_id r =? video_id) (videos db) with
     | None => Raise (HTTPException 404)
     | Some row =>
         match v_file_path row with
         | None => Raise (HTTPException 404)
         | Some video_path =>
             if nonempty video_path then
               match fs video_path with
               | None => Raise (HTTPException 404)
               | Some _ => stream_video fs video_path range_header
               end
             else Raise (HTTPException 404)
         end
     end)%result
    (fun e => Raise (HTTPException 500)).

(* ================================================================== *)
(** * Ingestion: [download_video] and [download_playlist] *)
(* ================================================================== *)

(** [sanitize_filename]: [re.sub] removes the characters of the class
    (less-than, greater-than, colon, double quote, slash, backslash,
    bar, question mark, star) and the slice keeps the first 200
    characters; [re.sub] on [None] raises [TypeError]. *)
Definition illegal_char (c : ascii) : bool :=
  existsb (Ascii.eqb c)
          ["<"; ">"; ":"; "034"; "/"; "\"; "|"; "?"; "*"]%char.

Fixpoint remove_illegal (s : string) : string :=
  match s with
  | EmptyString => EmptyString
  | String c rest =>
      if illegal_char c then remove_illegal rest
      else String c (remove_illegal rest)
  end.

Definition sanitize_filename (filename : option string) : result string :=
  match filename with
  | None => Raise TypeError
  | Some name => Ok (String.substring 0 200 (remove_illegal name))
  end.

(** The dictionary that [download_video] returns. *)
Inductive video_result : Type :=
| VideoError (message : string)
| VideoSuccess (video_id : option string) (title : option string)
               (is_short : value) (db_id : Z).

Definition is_success (r : video_result) : bool :=
  match r with
  | VideoSuccess _ _ _ _ => true
  | VideoError _ => false
  end.

(** An entry of a flattened playlist listing, and the listing. *)
Record entry : Type := mk_entry {
  entry_url : field string;
  entry_id : field string;
  entry_title : field string
}.

Record playlist_info : Type := mk_playlist_info {
  playlist_title : field string;
  playlist_ext_id : field string;
  playlist_description : field string;
  playlist_entries : field (list entry)
}.

(** The dictionary that [download_playlist] returns. *)
Inductive playlist_result : Type :=
| PlaylistError (message : string)
| PlaylistSuccess (playlist_name : option string) (total_videos : Z)
                  (results : list video_result).

(** [INSERT OR IGNORE INTO playlists]: the row is skipped when [name]
    ([NOT NULL]) is [NULL] or when a row holds the same non-null
    [playlist_id] ([UNIQUE]).  The rowid is drawn before the constraints
    are checked: a skipped row advances the counter of the table all
    the same. *)
Definition same_playlist (playlist_id : option string) (r : playlist_row)
  : bool :=
  match p_playlist_id r, playlist_id with
  | Some a, Some b => String.eqb a b
  | _, _ => false
  end.

Definition insert_or_ignore_playlist (playlist_id name description : option string)
                                     (created_date : string) : db_op unit :=
  fun db =>
    match execute sql_insert_playlist with
    | Raise e => (Raise e, db)
    | Ok _ =>
        let rowid :=
          next_rowid (playlists_seq db) (map p_id (playlists db)) in
        let skipped :=
          mk_database (videos db) (videos_seq db) (tags db) (tags_seq db)
                      (playlists db) rowid (playlist_items db) in
        match name with
        | None => (Ok tt, skipped)
        | Some name =>
            if existsb (same_playlist playlist_id) (playlists db)
            then (Ok tt, skipped)
            else
              (Ok tt,
               mk_database (videos db) (videos_seq db)
                           (tags db) (tags_seq db)
                           (playlists db
                            ++ [mk_playlist_row rowid playlist_id name
                                                description (Some created_date)])
                           rowid
                           (playlist_items db))
        end
    end.

(** [SELECT id FROM playlists WHERE playlist_id = ?] and
    [cursor.fetchone()[0]]: indexing [None] raises [TypeError]. *)
Definition select_playlist_id (playlist_id : option string) : db_op Z :=
  fun db =>
    match execute sql_select_playlist with
    | Raise e => (Raise e, db)
    | Ok _ =>
        match find (same_playlist playlist_id) (playlists db) with
        | Some row => (Ok (p_id row), db)
        | None => (Raise TypeError, db)
        end
    end.

(** [INSERT INTO playlist_items (playlist_id, videos_id, position)]. *)
Definition insert_playlist_item (playlist_id videos_id position : Z)
  : db_op unit :=
  fun db =>
    match execute sql_insert_playlist_item with
    | Raise e => (Raise e, db)
    | Ok _ =>
        (Ok tt,
         mk_database (videos db) (videos_seq db)
                     (tags db) (tags_seq db)
                     (playlists db) (playlists_seq db)
                     (playlist_items db
                      ++ [mk_playlist_item_row playlist_id videos_id position]))
    end.

(** [str(x)] of a [str] or [None] inside an f-string. *)
Definition format_str (o : option string) : string :=
  match o with
  | Some s => s
  | None => "None"
  end.

(** The URL of an entry: [entry.get('url')] when it is a non-empty
    [str], else the watch URL built from [entry.get('id')]. *)
Definition entry_video_url (e : entry) : string :=
  match get (entry_url e) with
  | Some (String c rest) => String c rest
  | _ => ("https://www.youtube.com/watch?v=" ++ format_str (get (entry_id e)))%string
  end.

Section Ingestion.

(** The external extractor.  [extract_info url download] is
    [ydl.extract_info(url, download=...)] of [download_video]: the
    metadata, or the text of the exception raised.  [extract_flat] is
    the flattened listing of [download_playlist].  The files that the
    extractor writes, and the lines printed on the console, are outside
    the model. *)
Variable extract_info : string -> bool -> string + info.
Variable extract_flat : string -> string + playlist_info.

(** The file system under [base_path]: [mkdir video_type uploader] is
    [(base_path / video_type / uploader).mkdir(parents=True,
    exist_ok=True)], which returns or raises (a name too long for the
    file system, a name taken by a file, ...). *)
Variable mkdir : string -> string -> result unit.
Variable prepare_filename : info -> string.

(** [datetime.now().isoformat()]. *)
Variable now : string.

Definition download_video (url : string) (custom_tags : option (list string))
                          (playlist_name : option string)
  : db_op video_result :=
  fun db =>
    match extract_info url false with
    | inl message => (Ok (VideoError message), db)
    | inr probe =>
        match
          (let? is_short := is_youtube_short probe in
           let video_type := if truthy is_short then "shorts" else "videos" in
           let? uploader :=
             sanitize_filename (get_default (info_uploader probe) "Unknown") in
           let? title :=
             sanitize_filename (get_default (info_title probe) "Untitled") in
           let? _ := mkdir video_type uploader in
           Ok is_short)%result
        with
        | Raise e => (Raise e, db)
        | Ok is_short =>
            match extract_info url true with
            | inl message => (Ok (VideoError message), db)
            | inr i =>
                let downloaded_file := prepare_filename i in
                let video_data :=
                  {| vd_video_id := field_of (get (info_id i));
                     vd_title := field_of (get (info_title i));
                     vd_uploader := field_of (get (info_uploader i));
                     vd_upload_date := field_of (get (info_upload_date i));
                     vd_duration := field_of (get (info_duration i));
                     vd_description := field_of (get (info_description i));
                     vd_view_count := field_of (get (info_view_count i));
                     vd_is_short := Val is_short;
                     vd_file_path := Val downloaded_file;
                     vd_thumbnail_path := field_of (get (info_thumbnail i));
                     vd_download_date := Val now;
                     vd_original_url := Val url;
                     vd_status := Val "completed" |} in
                match save_to_database video_data custom_tags playlist_name db with
                | (Raise e, db') => (Raise e, db')
                | (Ok db_video_id, db') =>
                    (Ok (VideoSuccess (get (info_id i)) (get (info_title i))
                                      is_short db_video_id),
                     db')
                end
            end
        end
    end.

(** The loop of [download_playlist] over [enumerate(entries)], from
    index [idx] on, appending to [results]. *)
Fixpoint download_entries (custom_tags : option (list string))
                          (playlist_name : option string)
                          (db_playlist_id : Z) (idx : Z)
                          (entries : list entry)
                          (results : list video_result)
  : db_op (list video_result) :=
  fun db =>
    match entries with
    | [] => (Ok results, db)
    | e :: rest =>
        let video_url := entry_video_url e in
        match download_video video_url custom_tags playlist_name db with
        | (Raise exc, db1) => (Raise exc, db1)
        | (Ok r, db1) =>
            let linked :=
              match r with
              | VideoSuccess _ _ _ db_id =>
                  insert_playlist_item db_playlist_id db_id idx db1
              | VideoError _ => (Ok tt, db1)
              end in
            match linked with
            | (Raise exc, db2) => (Raise exc, db2)
            | (Ok _, db2) =>
                download_entries custom_tags playlist_name db_playlist_id
                                 (idx + 1) rest (results ++ [r]) db2
            end
        end
    end.

Definition download_playlist (playlist_url : string)
                             (custom_tags : option (list string))
  : db_op playlist_result :=
  fun db =>
    match extract_flat playlist_url with
    | inl message => (Ok (PlaylistError message), db)
    | inr listing =>
        let playlist_name :=
          get_default (playlist_title listing) "Unknown Playlist" in
        let playlist_id := get (playlist_ext_id listing) in
        match insert_or_ignore_playlist
                playlist_id playlist_name
                (get_default (playlist_description listing) "") now db with
        | (Raise e, db1) => (Raise e, db1)
        | (Ok _, db1) =>
            match select_playlist_id playlist_id db1 with
            | (Raise e, db2) => (Raise e, db2)
            | (Ok db_playlist_id, db2) =>
                (* enumerate(None) raises TypeError *)
                match get_default (playlist_entries listing) [] with
                | None => (Raise TypeError, db2)
                | Some entries =>
                    match download_entries custom_tags playlist_name
                                           db_playlist_id 0 entries [] db2 with
                    | (Raise e, db3) => (Raise e, db3)
                    | (Ok results, db3) =>
                        (Ok (PlaylistSuccess playlist_name
                                             (Z.of_nat (List.length entries))
                                             results),
                         db3)
                    end
                end
            end
        end
    end.

End Ingestion.

(* ================================================================== *)
(** * Web interface: the JSON endpoints *)
(* ================================================================== *)

(** The body of the two download endpoints. *)
Record download_response : Type := mk_download_response {
  response_status : string;
  response_message : string
}.

Definition sql_select_playlists : string := "SELECT * FROM playlists".

Definition sql_count_videos : string :=
  "SELECT COUNT(*) FROM videos WHERE is_short = 0".

Definition sql_count_shorts : string :=
  "SELECT COUNT(*) FROM videos WHERE is_short = 1".

Definition sql_count_playlists : string := "SELECT COUNT(*) FROM playlists".

Definition sql_sum_duration : string := "SELECT SUM(duration) FROM videos".

(** [GET /api/videos]: the query parameter [is_short] is a [bool] that
    defaults to [False], so that the filter is always set. *)
Definition get_videos (is_short : bool) (db : database)
  : result (list video_row) :=
  try_except (get_all_videos (Some is_short) db)
             (fun e => Raise (HTTPException 500)).

(** [GET /api/playlists]. *)
Definition get_playlists (db : database) : result (list playlist_row) :=
  try_except
    (let? _ := execute sql_select_playlists in Ok (playlists db))%result
    (fun e => Raise (HTTPException 500)).

(** [GET /api/search]. *)
Definition api_search_videos (q : string) (db : database)
  : result (list video_row) :=
  try_except (search_videos q db) (fun e => Raise (HTTPException 500)).

(** [SUM(duration)]: the rows are scanned in their order and the
    durations that are not [NULL] are added to a signed 64-bit
    accumulator; [acc] is the accumulator, [None] as long as no duration
    was met.  An addition that leaves the 64 bits makes the statement
    fail with [OperationalError] (integer overflow).  The result is
    [NULL] when no duration was met. *)
Fixpoint sum_duration_from (acc : option Z) (rows : list video_row)
  : result (option Z) :=
  match rows with
  | [] => Ok acc
  | r :: rest =>
      match v_duration r with
      | None => sum_duration_from acc rest
      | Some d =>
          let total := match acc with
                       | Some a => a + d
                       | None => 0 + d
                       end in
          if int64 total then sum_duration_from (Some total) rest
          else Raise OperationalError
      end
  end.

Definition sum_duration (rows : list video_row) : result (option Z) :=
  sum_duration_from None rows.

Section Stats.

(** [round(total_duration / 3600, 2)] is a computation on floats; the
    type of its results and the function itself are left abstract. *)
Variable float : Type.
Variable round_hours : Z -> float.

(** The dictionary of [get_stats]. *)
Record stats : Type := mk_stats {
  total_videos : Z;
  total_shorts : Z;
  total_playlists : Z;
  total_duration_seconds : Z;
  total_duration_hours : float
}.

(** [GET /api/stats]. *)
Definition get_stats (db : database) : result stats :=
  try_except
    (let? _ := execute sql_count_videos in
     let video_count :=
       Z.of_nat (List.length (filter (is_short_is false) (videos db))) in
     let? _ := execute sql_count_shorts in
     let shorts_count :=
       Z.of_nat (List.length (filter (is_short_is true) (videos db))) in
     let? _ := execute sql_count_playlists in
     let playlist_count := Z.of_nat (List.length (playlists db)) in
     let? _ := execute sql_sum_duration in
     let? total := sum_duration (videos db) in
     (* total_duration = cursor.fetchone()[0] or 0 *)
     let total_duration :=
       match total with
       | Some total => total
       | None => 0
       end in
     Ok (mk_stats video_count shorts_count playlist_count total_duration
                  (round_hours total_duration)))%result
    (fun e => Raise (HTTPException 500)).

End Stats.

Section Thumbnail.

(** [Path(p).parent / f"{Path(p).stem}{ext}"]: the file beside the video
    file [p] whose name is the stem of [p] followed by [ext].  The path
    arithmetic of [pathlib] is left abstract. *)
Variable sibling : string -> string -> string.

(** The loop of [get_thumbnail] over the extensions. *)
Fixpoint first_thumbnail (fs : filesystem) (video_path : string)
                         (extensions : list string) : option string :=
  match extensions with
  | [] => None
  | ext :: rest =>
      let thumb_path := sibling video_path ext in
      match fs thumb_path with
      | Some _ => Some thumb_path
      | None => first_thumbnail fs video_path rest
      end
  end.

(** [GET /api/thumbnail/{video_id}]: the path handed to [FileResponse],
    or the exception raised. *)
Definition get_thumbnail (db : database) (fs : filesystem) (video_id : Z)
  : result string :=
  try_except
    (let? _ := execute sql_select_file_path in
     let found :=
       match find (fun r => v_id r =? video_id) (videos db) with
       | Some row =>
           match v_file_path row with
           | Some video_path =>
               if nonempty video_path
               then first_thumbnail fs video_path [".jpg"; ".webp"; ".png"]
               else None
           | None => None
           end
       | None => None
       end in
     match found with
     | Some thumb_path => Ok thumb_path
     | None => Raise (HTTPException 404)
     end)%result
    (fun e => Raise (HTTPException 404)).

End Thumbnail.

Section WebIngestion.

Variable extract_info : string -> bool -> string + info.
Variable extract_flat : string -> string + playlist_info.
Variable mkdir : string -> string -> result unit.
Variable prepare_filename : info -> string.
Variable now : string.

(** [POST /api/download-video].  The handler registers
    [manager.download_video] as a background task and then calls it
    itself.  When the handler returns, the response is sent and the
    background task runs: the URL is ingested a second time, on the
    catalog that the first run left.  When the handler raises, the
    error response carries no background task. *)
Definition api_download_video (url : string) (tags : option (list string))
  : db_op download_response :=
  fun db =>
    match download_video extract_info mkdir prepare_filename now url tags None db with
    | (Raise e, db1) => (Raise (HTTPException 500), db1)
    | (Ok r, db1) =>
        let response :=
          match r with
          | VideoSuccess _ title _ _ =>
              mk_download_response
                "success"
                ("Successfully downloaded: " ++ format_str title)%string
          | VideoError message => mk_download_response "error" message
          end in
        let db2 :=
          snd (download_video extract_info mkdir prepare_filename now url tags None db1) in
        (Ok response, db2)
    end.

(** [POST /api/download-playlist]: the same scheme; the answer is a
    success whatever the report of [download_playlist] says. *)
Definition api_download_playlist (url : string) (tags : option (list string))
  : db_op download_response :=
  fun db =>
    match download_playlist extract_info extract_flat mkdir prepare_filename now
                            url tags db with
    | (Raise e, db1) => (Raise (HTTPException 500), db1)
    | (Ok r, db1) =>
        let playlist_name :=
          match r with
          | PlaylistSuccess name _ _ => name
          | PlaylistError _ => None
          end in
        let db2 :=
          snd (download_playlist extract_info extract_flat mkdir prepare_filename now
                                 url tags db1) in
        (Ok (mk_download_response
               "success"
               ("Playlist download started: " ++ format_str playlist_name)%string),
         db2)
    end.

End WebIngestion.

(* ================================================================== *)
(** * Vocabulary of the statements *)
(* ================================================================== *)

Definition has_value {T : Type} (f : field T) : bool :=
  match f with
  | Val _ => true
  | _ => false
  end.

Definition not_null {T : Type} (f : field T) : bool :=
  match f with
  | Null => false
  | _ => true
  end.

(** The two extractions of [download_video] succeed for an entry. *)
Definition entry_retrieved (extract_info : string -> bool -> string + info)
                           (e : entry) : bool :=
  match extract_info (entry_video_url e) false,
        extract_info (entry_video_url e) true with
  | inr _, inr _ => true
  | _, _ => false
  end.

(** The folder of [base_path] that a flag of the classifier selects. *)
Definition bucket (flag : value) : string :=
  if truthy flag then "shorts" else "videos".

(** The output directory of a probed record can be made. *)
Definition output_dir_made (mkdir : string -> string -> result unit)
                           (probe : info) : bool :=
  match is_youtube_short probe,
        sanitize_filename (get_default (info_uploader probe) "Unknown") with
  | Ok flag, Ok uploader =>
      match mkdir (bucket flag) uploader with
      | Ok _ => true
      | Raise _ => false
      end
  | _, _ => false
  end.

(** A probed record can be prepared: it has no [None] under the keys
    that [download_video] turns into text, and its output directory can
    be made. *)
Definition probe_well_formed (mkdir : string -> string -> result unit)
                             (probe : info) : bool :=
  not_null (info_web_page_url probe)
  && not_null (info_uploader probe)
  && not_null (info_title probe)
  && output_dir_made mkdir probe.

(** A downloaded record can be stored: it carries the external id and
    the title that the catalog requires, and its integers fit 64 bits. *)
Definition storable (i : info) : bool :=
  has_value (info_id i) && has_value (info_title i)
  && bindable_int (get (info_duration i))
  && bindable_int (get (info_view_count i)).

(** The metadata of an entry can be processed: when the probe returns a
    record, it can be prepared, and when the download returns a record,
    it can be stored. *)
Definition entry_well_formed (extract_info : string -> bool -> string + info)
                             (mkdir : string -> string -> result unit)
                             (e : entry) : bool :=
  match extract_info (entry_video_url e) false with
  | inl _ => true
  | inr probe =>
      probe_well_formed mkdir probe
      && match extract_info (entry_video_url e) true with
         | inl _ => true
         | inr i => storable i
         end
  end.

(** What the classifier returns for a record without the URL marker
    that is not a short by its shape: the duration itself when it is
    [None] or zero, [False] otherwise. *)
Definition not_short_value (i : info) : value :=
  match get_default (info_duration i) 0 with
  | None => VNone
  | Some d => if d =? 0 then VInt 0 else VBool false
  end.

(** The playlist items that a list of per-entry results stands for: one
    per success, at the index of the result in the listing, counted from
    [idx]. *)
Fixpoint items_of (db_playlist_id : Z) (idx : Z) (results : list video_result)
  : list playlist_item_row :=
  match results with
  | [] => []
  | VideoSuccess _ _ _ db_id :: rest =>
      mk_playlist_item_row db_playlist_id db_id idx
      :: items_of db_playlist_id (idx + 1) rest
  | VideoError _ :: rest => items_of db_playlist_id (idx + 1) rest
  end.

(** The indices, counted from [idx], of the flags that are set. *)
Fixpoint positions_of (idx : Z) (flags : list bool) : list Z :=
  match flags with
  | [] => []
  | true :: rest => idx :: positions_of (idx + 1) rest
  | false :: rest => positions_of (idx + 1) rest
  end.

Definition all_digits (l : list ascii) : Prop :=
  Forall (fun c => is_digit c = true) l.

(** The characters of [str n], for [n >= 0]. *)
Definition digits_text (n : Z) : list ascii :=
  rev (digits_of (S (Z.to_nat (Z.log2 n))) n).

(** The range headers that the parsing of [stream_video] goes through:
    once [bytes=] is deleted and the text is cut at every [-], the first
    field is an integer literal and there is a second field, empty or an
    integer literal. *)
Definition range_fields (range_header : string) : list string :=
  split_on "-" (remove_all "bytes=" range_header).

Definition is_literal (s : string) : bool :=
  match int s with
  | Ok _ => true
  | Raise _ => false
  end.

Definition range_accepted (range_header : string) : bool :=
  match range_fields range_header with
  | first :: second :: _ =>
      is_literal first && (negb (nonempty second) || is_literal second)
  | _ => false
  end.

(** A text holds none of the characters that [sanitize_filename]
    removes. *)
Fixpoint clean (s : string) : bool :=
  match s with
  | EmptyString => true
  | String c rest => negb (illegal_char c) && clean rest
  end.

(** The primary key and the [UNIQUE] column of [videos] hold no value
    twice. *)
Definition videos_unique (db : database) : Prop :=
  NoDup (map v_id (videos db)) /\ NoDup (map v_video_id (videos db)).


(** The sum of the durations that are known, and the values that the
    accumulator of [SUM(duration)] takes on the way, from [acc] on. *)
Definition known_total (rows : list video_row) : Z :=
  fold_right (fun r acc => match v_duration r with
                           | Some d => d + acc
                           | None => acc
                           end) 0 rows.

Fixpoint partial_sums (acc : Z) (rows : list video_row) : list Z :=
  match rows with
  | [] => []
  | r :: rest =>
      match v_duration r with
      | Some d => (acc + d) :: partial_sums (acc + d) rest
      | None => partial_sums acc rest
      end
  end.

(** The [video_data] dictionary that [download_video] builds from the
    metadata [i] of the download and the flag of the classifier. *)
Definition downloaded_data (prepare_filename : info -> string)
                           (now url : string) (is_short : value) (i : info)
  : video_data :=
  {| vd_video_id := field_of (get (info_id i));
     vd_title := field_of (get (info_title i));
     vd_uploader := field_of (get (info_uploader i));
     vd_upload_date := field_of (get (info_upload_date i));
     vd_duration := field_of (get (info_duration i));
     vd_description := field_of (get (info_description i));
     vd_view_count := field_of (get (info_view_count i));
     vd_is_short := Val is_short;
     vd_file_path := Val (prepare_filename i);
     vd_thumbnail_path := field_of (get (info_thumbnail i));
     vd_download_date := Val now;
     vd_original_url := Val url;
     vd_status := Val "completed" |}.

(** The bytes of a file from offset [first] to offset [last], both
    included. *)
Definition byte_range (content : list byte) (first last : Z) : list byte :=
  firstn (Z.to_nat (last - first + 1)) (skipn (Z.to_nat first) content).

(* ================================================================== *)
(** * Sample inputs *)
(* ================================================================== *)

(** The metadata of a vertical 45-second video with external id [id]. *)
Definition sample_info (id : string) : info :=
  mk_info (Val id) (Val ("Title " ++ id)%string) (Val "Uploader") Absent
          (Val 45) Absent Absent Absent (Val 720) (Val 1280) Absent.

(** The same metadata without the [title] key. *)
Definition untitled_info (id : string) : info :=
  mk_info (Val id) Absent (Val "Uploader") Absent
          (Val 45) Absent Absent Absent (Val 720) (Val 1280) Absent.

(** A playlist of three entries [a], [b], [c]. *)
Definition sample_listing : playlist_info :=
  mk_playlist_info (Val "Sample") (Val "PL1") Absent
                   (Val [mk_entry Absent (Val "a") Absent;
                         mk_entry Absent (Val "b") Absent;
                         mk_entry Absent (Val "c") Absent]).

Definition sample_flat (url : string) : string + playlist_info :=
  inr sample_listing.

(** An extractor that fails on entry [b] and retrieves the others. *)
Definition sample_extract (url : string) (download : bool) : string + info :=
  if String.eqb url "https://www.youtube.com/watch?v=a" then inr (sample_info "a")
  else if String.eqb url "https://www.youtube.com/watch?v=c" then inr (sample_info "c")
  else inl "ERROR: Video unavailable".

(** The same metadata with [None] as uploader. *)
Definition anonymous_info (id : string) : info :=
  mk_info (Val id) (Val ("Title " ++ id)%string) Null Absent
          (Val 45) Absent Absent Absent (Val 720) (Val 1280) Absent.

(** An extractor that retrieves every entry, entry [a] with the uploader
    [None]. *)
Definition anonymous_extract (url : string) (download : bool) : string + info :=
  if String.eqb url "https://www.youtube.com/watch?v=a" then inr (anonymous_info "a")
  else if String.eqb url "https://www.youtube.com/watch?v=b" then inr (sample_info "b")
  else inr (sample_info "c").

(** An extractor that retrieves every entry, entry [a] without title. *)
Definition untitled_extract (url : string) (download : bool) : string + info :=
  if String.eqb url "https://www.youtube.com/watch?v=a" then inr (untitled_info "a")
  else if String.eqb url "https://www.youtube.com/watch?v=b" then inr (sample_info "b")
  else inr (sample_info "c").

Definition sample_filename (i : info) : string := "media/video.mp4".

(** The metadata of a horizontal two-minute video, as the extractor
    returns it: no key ['web_page_url']. *)
Definition landscape_info : info :=
  mk_info (Val "abc") (Val "Long") (Val "Uploader") Absent
          (Val 120) Absent Absent Absent (Val 1920) (Val 1080) Absent.

Definition landscape_extract (url : string) (download : bool) : string + info :=
  inr landscape_info.

(** A file system on which every output directory can be made. *)
Definition sample_mkdir (video_type uploader : string) : result unit := Ok tt.

(** A file of 1000 bytes: byte [k] holds [k mod 256]. *)
Definition sample_file : list byte :=
  map (fun k => match Byte.of_nat (k mod 256) with
                | Some b => b
                | None => x00
                end)
      (seq 0 1000).

Definition sample_fs : filesystem :=
  fun path => if String.eqb path "media/video.mp4" then Some sample_file else None.

(* ================================================================== *)
(** * Theorems *)
(* ================================================================== *)

Lemma prefix_app (p s : string) : String.prefix p (p ++ s)%string = true.
Proof.
  induction p as [|c p IH]; simpl.
  - now destruct s.
  - destruct (Ascii.ascii_dec c c) as [_|n]; [exact IH | now elim n].
Qed.

Lemma contains_prefix (needle hay : string) :
  String.prefix needle hay = true -> contains needle hay = true.
Proof.
  intros H. destruct hay; cbn [contains]; rewrite H; reflexivity.
Qed.

Lemma contains_app (needle pre post : string) :
  contains needle (pre ++ needle ++ post)%string = true.
Proof.
  induction pre as [|c pre IH].
  - cbn [append]. apply contains_prefix, prefix_app.
  - cbn [append contains]. rewrite IH. apply orb_true_r.
Qed.

Lemma prefix_split (p s : string) :
  String.prefix p s = true -> exists post, s = (p ++ post)%string.
Proof.
  revert s; induction p as [|c p IH]; intros s H.
  - now exists s.
  - destruct s as [|d s]; simpl in H; [discriminate|].
    destruct (Ascii.ascii_dec c d) as [->|]; [|discriminate].
    destruct (IH _ H) as [post ->]. now exists post.
Qed.

Lemma contains_split (needle hay : string) :
  contains needle hay = true ->
  exists pre post, hay = (pre ++ needle ++ post)%string.
Proof.
  induction hay as [|c hay IH]; cbn [contains]; intros H.
  - rewrite orb_false_r in H. destruct (prefix_split _ _ H) as [post E].
    now exists "", post.
  - apply orb_true_iff in H as [H|H].
    + destruct (prefix_split _ _ H) as [post E]. now exists "", post.
    + destruct (IH H) as (pre & post & ->). now exists (String c pre), post.
Qed.

(** A record that holds the marker [/shorts/] under the key
    ['web_page_url'] is classified as a short ([True] is returned),
    whatever its duration, width and height are.  No code of the
    program sets that key. *)
Lemma is_youtube_short_url_marker (i : info) (pre post : string) :
  info_web_page_url i = Val (pre ++ "/shorts/" ++ post)%string ->
  is_youtube_short i = Ok (VBool true).
Proof.
  intros Hurl. unfold is_youtube_short. rewrite Hurl. cbn [get_default].
  unfold shorts_marker. rewrite (contains_app "/shorts/" pre post).
  destruct (info_duration i) as [| |d], (info_width i) as [| |w],
           (info_height i) as [| |h]; cbn -[Z.eqb Z.leb Z.gtb];
    repeat match goal with
           | |- context [?x =? 0] =>
               is_var x; destruct (Z.eqb_spec x 0); subst;
               cbn -[Z.eqb Z.leb Z.gtb]
           end; reflexivity.
Qed.

Lemma is_youtube_short_url_marker_witness :
  is_youtube_short
    (mk_info (Val "abc") (Val "t") Absent Absent (Val 300) Absent Absent
             Absent (Val 1920) (Val 1080)
             (Val ("https://www.youtube.com" ++ "/shorts/" ++ "abc")%string))
  = Ok (VBool true).
Proof.
  apply (is_youtube_short_url_marker _ "https://www.youtube.com" "abc").
  reflexivity.
Defined.

Lemma contains_iff (needle hay : string) :
  contains needle hay = true <->
  exists pre post, hay = (pre ++ needle ++ post)%string.
Proof.
  split.
  - apply contains_split.
  - intros (pre & post & ->). apply contains_app.
Qed.

Example short_45_720_1280 :
  is_youtube_short
    (mk_info Absent Absent Absent Absent (Val 45) Absent Absent Absent
             (Val 720) (Val 1280) Absent)
  = Ok (VBool true).
Proof. reflexivity. Qed.

Example not_short_45_1280_720 :
  is_youtube_short
    (mk_info Absent Absent Absent Absent (Val 45) Absent Absent Absent
             (Val 1280) (Val 720) Absent)
  = Ok (VBool false).
Proof. reflexivity. Qed.

Example not_short_120_vertical :
  is_youtube_short
    (mk_info Absent Absent Absent Absent (Val 120) Absent Absent Absent
             (Val 720) (Val 1280) Absent)
  = Ok (VBool false).
Proof. reflexivity. Qed.

(** Without the marker the value returned is not always a [bool]: a
    duration of 0 or [None] is returned as it is. *)
Example falsy_results :
  is_youtube_short
    (mk_info Absent Absent Absent Absent Absent Absent Absent Absent
             (Val 720) (Val 1280) Absent) = Ok (VInt 0)
  /\ is_youtube_short
       (mk_info Absent Absent Absent Absent Null Absent Absent Absent
                (Val 720) (Val 1280) Absent) = Ok VNone.
Proof. split; reflexivity. Qed.

(** For a metadata record whose URL (the empty string when the key is
    absent) does not contain the marker, the classifier returns a value
    [v] that is [True] exactly when the duration is known, nonzero and
    at most 60 and both dimensions are known and nonzero with the height
    above the width ([short_by_shape]); in every other case [v] is false
    as a condition ([False], [0] or [None]). *)
Lemma is_youtube_short_by_shape (i : info) (url : string) :
  get_default (info_web_page_url i) "" = Some url ->
  contains "/shorts/" url = false ->
  exists v,
    is_youtube_short i = Ok v
    /\ (v = VBool true <-> short_by_shape i = true)
    /\ truthy v = short_by_shape i.
Proof.
  intros Hurl Hno. unfold is_youtube_short, short_by_shape.
  rewrite Hurl. unfold shorts_marker. rewrite Hno.
  destruct (info_duration i) as [| |d], (info_width i) as [| |w],
           (info_height i) as [| |h]; cbn -[Z.eqb Z.leb Z.gtb Z.ltb];
    rewrite ?Z.gtb_ltb;
    repeat match goal with
           | |- context [?x =? 0] =>
               is_var x; destruct (Z.eqb_spec x 0); subst;
               cbn -[Z.eqb Z.leb Z.gtb Z.ltb]
           end;
    repeat match goal with
           | |- context [?a <=? ?b] =>
               destruct (a <=? b); cbn -[Z.eqb Z.leb Z.gtb Z.ltb]
           | |- context [?a <? ?b] =>
               destruct (a <? b); cbn -[Z.eqb Z.leb Z.gtb Z.ltb]
           end;
    eexists; (split; [reflexivity|]); (split; [|reflexivity]);
    split; (discriminate || reflexivity).
Qed.

Lemma is_youtube_short_by_shape_witness :
  exists v,
    is_youtube_short
      (mk_info Absent Absent Absent Absent (Val 45) Absent Absent Absent
               (Val 720) (Val 1280) (Val "https://youtu.be/watch?v=abc")) = Ok v
    /\ (v = VBool true <->
        short_by_shape
          (mk_info Absent Absent Absent Absent (Val 45) Absent Absent Absent
                   (Val 720) (Val 1280) (Val "https://youtu.be/watch?v=abc"))
        = true)
    /\ truthy v =
       short_by_shape
         (mk_info Absent Absent Absent Absent (Val 45) Absent Absent Absent
                  (Val 720) (Val 1280) (Val "https://youtu.be/watch?v=abc")).
Proof.
  apply (is_youtube_short_by_shape _ "https://youtu.be/watch?v=abc");
    reflexivity.
Defined.

(** C3, as the code behaves: for a record without the URL marker the
    classifier returns [True] exactly under the rule of the shape, but
    outside the rule the value is not always [False]: the expression
    [duration and duration <= 60] hands on the duration itself when it
    is [None] or zero, so that the function, declared to return a
    [bool], returns [None] or [0] for such a record. *)
Theorem is_youtube_short_value (i : info) (url : string) :
  get_default (info_web_page_url i) "" = Some url ->
  contains "/shorts/" url = false ->
  is_youtube_short i
  = Ok (if short_by_shape i then VBool true else not_short_value i)
  /\ (get (info_duration i) = None \/ get (info_duration i) = Some 0 ->
      short_by_shape i = false
      /\ is_youtube_short i <> Ok (VBool false)).
Proof.
  intros Hurl Hno. unfold is_youtube_short, short_by_shape, not_short_value.
  rewrite Hurl. unfold shorts_marker. rewrite Hno.
  destruct (info_duration i) as [| |d], (info_width i) as [| |w],
           (info_height i) as [| |h]; cbn -[Z.eqb Z.leb Z.gtb Z.ltb];
    rewrite ?Z.gtb_ltb;
    repeat match goal with
           | |- context [?x =? 0] =>
               is_var x; destruct (Z.eqb_spec x 0); subst;
               cbn -[Z.eqb Z.leb Z.gtb Z.ltb]
           end;
    repeat match goal with
           | |- context [?a <=? ?b] =>
               destruct (a <=? b); cbn -[Z.eqb Z.leb Z.gtb Z.ltb]
           | |- context [?a <? ?b] =>
               destruct (a <? b); cbn -[Z.eqb Z.leb Z.gtb Z.ltb]
           end;
    (split; [reflexivity|]);
    intros [H|H]; try discriminate; try (injection H; intros; congruence);
    split; (reflexivity || discriminate).
Qed.

Lemma is_youtube_short_value_witness :
  let i := mk_info Absent Absent Absent Absent Null Absent Absent Absent
                   (Val 720) (Val 1280) Absent in
  is_youtube_short i
  = Ok (if short_by_shape i then VBool true else not_short_value i)
  /\ (get (info_duration i) = None \/ get (info_duration i) = Some 0 ->
      short_by_shape i = false
      /\ is_youtube_short i <> Ok (VBool false)).
Proof.
  intro i. apply (is_youtube_short_value i ""); reflexivity.
Defined.

(** The failing inputs, run: a duration of [None] gives [None], an
    absent duration gives [0], whatever the dimensions are. *)
Example is_youtube_short_not_bool :
  is_youtube_short
    (mk_info Absent Absent Absent Absent Null Absent Absent Absent
             Absent Absent Absent) = Ok VNone
  /\ is_youtube_short
       (mk_info Absent Absent Absent Absent Absent Absent Absent Absent
                (Val 1280) (Val 720) Absent) = Ok (VInt 0).
Proof. split; reflexivity. Qed.

(* ------------------------------------------------------------------ *)
(** ** Catalog queries *)
(* ------------------------------------------------------------------ *)

Lemma completed_iff (r : video_row) :
  completed r = true <-> v_status r = Some "completed".
Proof.
  unfold completed. destruct (v_status r) as [st|].
  - rewrite String.eqb_eq. split; congruence.
  - split; discriminate.
Qed.

Lemma is_short_is_iff (flag : bool) (r : video_row) :
  is_short_is flag r = true <-> v_is_short r = Some (if flag then 1 else 0).
Proof.
  unfold is_short_is. destruct (v_is_short r) as [z|].
  - rewrite Z.eqb_eq. split; congruence.
  - split; discriminate.
Qed.

(** C7. [get_all_videos] returns normally, and a row is in its result
    exactly when it is a row of [videos] whose status is ['completed']
    and, under the filter, whose [is_short] column equals the flag asked
    for; a row with any other status ([pending], [error], [NULL]) is
    never returned. *)
Theorem get_all_videos_completed (is_short : option bool) (db : database) :
  exists rows,
    get_all_videos is_short db = Ok rows
    /\ forall r,
         In r rows <->
         In r (videos db)
         /\ v_status r = Some "completed"
         /\ forall flag, is_short = Some flag ->
                         v_is_short r = Some (if flag then 1 else 0).
Proof.
  destruct is_short as [flag|]; cbn.
  - eexists; split; [reflexivity|]. intros r.
    rewrite filter_In, andb_true_iff, completed_iff, is_short_is_iff.
    split.
    + intros (Hin & Hst & Hfl). repeat split; trivial.
      intros flag' [= <-]. exact Hfl.
    + intros (Hin & Hst & Hfl). repeat split; trivial. now apply Hfl.
  - eexists; split; [reflexivity|]. intros r.
    rewrite filter_In, completed_iff. split.
    + intros (Hin & Hst). repeat split; trivial. discriminate.
    + intros (Hin & Hst & _). now split.
Qed.

(** C6, as the code behaves: the statement of [search_videos] ends inside
    the string literal ['completed], so that every call raises
    [sqlite3.OperationalError], whatever the catalog and the query. *)
Theorem search_videos_raises (query : string) (db : database) :
  search_videos query db = Raise OperationalError.
Proof. reflexivity. Qed.

(* ------------------------------------------------------------------ *)
(** ** Streaming: status codes *)
(* ------------------------------------------------------------------ *)

(** [stream_video] answers a missing file with status 500: the 404 that
    it raises is caught by its own handler. *)
Lemma stream_video_missing (fs : filesystem) (path : string)
                           (range_header : option string) :
  fs path = None ->
  stream_video fs path range_header = Raise (HTTPException 500).
Proof. intros H. unfold stream_video. rewrite H. reflexivity. Qed.

Lemma stream_video_status (fs : filesystem) (path : string)
                          (range_header : option string) :
  http_status (stream_video fs path range_header) = 200
  \/ http_status (stream_video fs path range_header) = 206
  \/ http_status (stream_video fs path range_header) = 500.
Proof.
  unfold stream_video. destruct (fs path) as [content|]; cbn; [|auto].
  destruct range_header as [h|]; cbn; [|auto].
  destruct (nonempty h); cbn; [|auto].
  destruct (parse_range h _) as [[start end_]|e]; cbn; auto.
Qed.

(** C8, as the code behaves: when the catalog id is unknown, or the row
    has no file path, or the file is missing on disk, [stream_by_id]
    raises the 404 inside its [try] block, the handler of that block
    catches it, and the response status is 500. *)
Theorem stream_by_id_not_found_is_500
        (db : database) (fs : filesystem) (video_id : Z)
        (range_header : option string) :
  (find (fun r => v_id r =? video_id) (videos db) = None
   \/ exists row path,
        find (fun r => v_id r =? video_id) (videos db) = Some row
        /\ v_file_path row = Some path /\ fs path = None) ->
  http_status (stream_by_id db fs video_id range_header) = 500.
Proof.
  unfold stream_by_id. cbn.
  intros [Hnone | (row & path & Hrow & Hpath & Hfs)].
  - rewrite Hnone. reflexivity.
  - rewrite Hrow, Hpath. destruct (nonempty path); [|reflexivity].
    rewrite Hfs. reflexivity.
Qed.

Lemma stream_by_id_not_found_is_500_witness :
  http_status (stream_by_id empty_database (fun _ => None) 1 None) = 500.
Proof.
  apply stream_by_id_not_found_is_500. left. reflexivity.
Defined.

(** [stream_by_id] never answers 404. *)
Lemma stream_by_id_status (db : database) (fs : filesystem) (video_id : Z)
                          (range_header : option string) :
  http_status (stream_by_id db fs video_id range_header) = 200
  \/ http_status (stream_by_id db fs video_id range_header) = 206
  \/ http_status (stream_by_id db fs video_id range_header) = 500.
Proof.
  unfold stream_by_id. cbn.
  destruct (find _ (videos db)) as [row|]; cbn; [|auto].
  destruct (v_file_path row) as [path|]; cbn; [|auto].
  destruct (nonempty path); cbn; [|auto].
  destruct (fs path) eqn:Hfs; cbn; [|auto].
  pose proof (stream_video_status fs path range_header) as H.
  destruct (stream_video fs path range_header) as [r|e]; cbn in *; [exact H|].
  auto.
Qed.


(** A header without the [bytes=] unit is served as a range all the
    same. *)
Example stream_video_unit_not_checked :
  let fs : filesystem :=
    fun p => if String.eqb p "a.mp4" then Some [x00; x01; x02] else None in
  http_status (stream_video fs "a.mp4" (Some "1-2")) = 206.
Proof. reflexivity. Qed.




(** Headers that do not go through the parsing: letters for bounds, no
    separator, a suffix range, a list of ranges; and headers that do,
    though they are not of the form [bytes=<start>-<end>]. *)
Example range_headers_rejected :
  map range_accepted ["bytes=abc-def"; "bytes=100"; "bytes=-500";
                      "bytes=0-10,20-30"; "bytes=1-x"]
  = [false; false; false; false; false].
Proof. reflexivity. Qed.

Example range_headers_not_checked :
  map range_accepted ["1-2"; "bytes= 1 - 2 "; "bytes=1-2-junk";
                      "bytes=bytes=+1-2"; "bytes=5-2"]
  = [true; true; true; true; true].
Proof. reflexivity. Qed.

(** When the row and its file exist, [stream_by_id] answers as
    [stream_video] does on the path of the row. *)
Lemma stream_by_id_found (db : database) (fs : filesystem) (video_id : Z)
      (range_header : option string) (row : video_row) (video_path : string)
      (content : list byte) :
  find (fun r => v_id r =? video_id) (videos db) = Some row ->
  v_file_path row = Some video_path ->
  nonempty video_path = true ->
  fs video_path = Some content ->
  stream_by_id db fs video_id range_header
  = stream_video fs video_path range_header.
Proof.
  intros Hrow Hpath Hne Hfs. unfold stream_by_id.
  change (execute sql_select_file_path) with (Ok tt). cbn [rbind].
  rewrite Hrow, Hpath, Hne, Hfs.
  unfold stream_video, try_except.
  destruct (match fs video_path with Some _ => _ | None => _ end);
    reflexivity.
Qed.

(** The statements of the other catalog operations are well formed. *)
Example other_statements_accepted :
  map execute [sql_insert_video; sql_insert_tag; sql_insert_playlist;
               sql_select_playlist; sql_insert_playlist_item;
               sql_select_completed; sql_select_completed_short;
               sql_select_file_path]
  = [Ok tt; Ok tt; Ok tt; Ok tt; Ok tt; Ok tt; Ok tt; Ok tt].
Proof. reflexivity. Qed.

(* ------------------------------------------------------------------ *)
(** ** Catalog upsert *)
(* ------------------------------------------------------------------ *)

Lemma next_rowid_fresh (seq : Z) (ids : list Z) (x : Z) :
  In x ids -> x < next_rowid seq ids.
Proof.
  unfold next_rowid. induction ids as [|y ids IH]; cbn; [easy|].
  intros [->|H]; [lia|]. specialize (IH H). lia.
Qed.

Lemma next_rowid_above_seq (seq : Z) (ids : list Z) :
  seq < next_rowid seq ids.
Proof. unfold next_rowid. lia. Qed.

Lemma insert_tags_ok (video_db_id : Z) (ts : list string) (db : database) :
  exists rows seq',
    insert_tags video_db_id ts db
    = (Ok tt,
       mk_database (videos db) (videos_seq db) (tags db ++ rows) seq'
                   (playlists db) (playlists_seq db) (playlist_items db))
    /\ map t_video_id rows = map (fun _ => video_db_id) ts
    /\ map t_tag rows = ts
    /\ Forall (fun r => forall o, In o (tags db) -> t_id o < t_id r) rows.
Proof.
  revert db. induction ts as [|tag ts IH]; intros db.
  - exists [], (tags_seq db). cbn. rewrite app_nil_r.
    destruct db; repeat split; constructor.
  - cbn [insert_tags]. unfold insert_tag.
    change (execute sql_insert_tag) with (Ok tt).
    set (rowid := next_rowid (tags_seq db) (map t_id (tags db))).
    set (db1 := mk_database _ _ _ _ _ _ _).
    destruct (IH db1) as (rows & seq' & Hrun & Hids & Htags & Hfresh).
    exists (mk_tag_row rowid video_db_id tag :: rows), seq'.
    rewrite Hrun. subst db1. cbn. rewrite <- app_assoc. cbn.
    repeat split.
    + now rewrite Hids.
    + now rewrite Htags.
    + constructor.
      * cbn. intros o Ho. apply next_rowid_fresh. now apply in_map.
      * eapply Forall_impl; [|exact Hfresh]. cbn. intros r Hr o Ho.
        apply Hr. apply in_or_app. now left.
Qed.

(** A save of a record that carries an external id and a title, and
    whose integers fit 64 bits, returns the fresh rowid; the table holds the rows of the other external ids
    followed by the new row; tag rows are only appended; the playlist
    tables are untouched. *)
Lemma save_to_database_ok (vd : video_data) (tgs : option (list string))
      (playlist_name : option string) (db : database) (ext title : string) :
  vd_video_id vd = Val ext ->
  vd_title vd = Val title ->
  bindable vd = true ->
  exists rows seq',
    let rowid := next_rowid (videos_seq db) (map v_id (videos db)) in
    save_to_database vd tgs playlist_name db
    = (Ok rowid,
       mk_database
         (filter (fun r => negb (String.eqb (v_video_id r) ext)) (videos db)
          ++ [video_row_of rowid ext title vd])
         rowid (tags db ++ rows) seq'
         (playlists db) (playlists_seq db) (playlist_items db))
    /\ map t_video_id rows = map (fun _ => rowid) (all_tags tgs)
    /\ map t_tag rows = all_tags tgs
    /\ Forall (fun r => forall o, In o (tags db) -> t_id o < t_id r) rows.
Proof.
  intros Hid Htitle Hbind. unfold save_to_database, insert_or_replace_video.
  change (execute sql_insert_video) with (Ok tt). cbn iota.
  rewrite Hbind, Hid, Htitle. cbn [get negb].
  set (rowid := next_rowid _ _). set (db1 := mk_database _ _ _ _ _ _ _).
  destruct (insert_tags_ok rowid (all_tags tgs) db1)
    as (rows & seq' & Hrun & Hids & Htags & Hfresh).
  exists rows, seq'. rewrite Hrun. subst db1. cbn. auto.
Qed.

(** A record without external id or without title is refused: the
    [NOT NULL] constraint aborts the INSERT and nothing is written. *)
Lemma save_to_database_not_null (vd : video_data) (tgs : option (list string))
      (playlist_name : option string) (db : database) :
  bindable vd = true ->
  get (vd_video_id vd) = None \/ get (vd_title vd) = None ->
  save_to_database vd tgs playlist_name db = (Raise IntegrityError, db).
Proof.
  unfold save_to_database, insert_or_replace_video.
  change (execute sql_insert_video) with (Ok tt). cbn iota.
  intros -> [H|H]; rewrite H; [reflexivity|].
  now destruct (get (vd_video_id vd)).
Qed.

(** A record with an integer outside 64 bits is refused when it is
    bound: nothing is written. *)
Lemma save_to_database_overflow (vd : video_data) (tgs : option (list string))
      (playlist_name : option string) (db : database) :
  bindable vd = false ->
  save_to_database vd tgs playlist_name db = (Raise OverflowError, db).
Proof.
  unfold save_to_database, insert_or_replace_video.
  change (execute sql_insert_video) with (Ok tt). cbn iota.
  now intros ->.
Qed.

Lemma filter_other_ids (ext : string) (rows : list video_row) :
  filter (fun r => String.eqb (v_video_id r) ext)
         (filter (fun r => negb (String.eqb (v_video_id r) ext)) rows) = [].
Proof.
  induction rows as [|r rows IH]; cbn; [reflexivity|].
  destruct (String.eqb (v_video_id r) ext) eqn:E; cbn; [exact IH|].
  now rewrite E.
Qed.

Lemma save_to_database_one_row (vd : video_data) (tgs : option (list string))
      (playlist_name : option string) (db : database) (ext title : string) :
  vd_video_id vd = Val ext ->
  vd_title vd = Val title ->
  bindable vd = true ->
  exists rowid db',
    save_to_database vd tgs playlist_name db = (Ok rowid, db')
    /\ filter (fun r => String.eqb (v_video_id r) ext) (videos db')
       = [video_row_of rowid ext title vd].
Proof.
  intros Hid Htitle Hbind.
  destruct (save_to_database_ok vd tgs playlist_name db ext title Hid Htitle
                                Hbind)
    as (rows & seq' & Hrun & _).
  cbn zeta in Hrun. eexists _, _. split; [exact Hrun|].
  cbn [videos]. rewrite filter_app, filter_other_ids. cbn.
  now rewrite String.eqb_refl.
Qed.

(** C4, amended: two saves with the same external id, of records that
    carry a title and whose integer fields (duration, view count, flag)
    fit a signed 64-bit integer (any other field values, any tags): both
    return, and afterwards exactly one row of [videos] holds that
    external id; its columns are the values bound from the record of
    the second save. *)
Theorem save_twice_replaces
        (vd1 vd2 : video_data) (tags1 tags2 : option (list string))
        (name1 name2 : option string) (db : database)
        (ext title1 title2 : string) :
  vd_video_id vd1 = Val ext -> vd_title vd1 = Val title1 ->
  vd_video_id vd2 = Val ext -> vd_title vd2 = Val title2 ->
  bindable vd1 = true -> bindable vd2 = true ->
  exists id1 db1 id2 db2,
    save_to_database vd1 tags1 name1 db = (Ok id1, db1)
    /\ save_to_database vd2 tags2 name2 db1 = (Ok id2, db2)
    /\ filter (fun r => String.eqb (v_video_id r) ext) (videos db2)
       = [video_row_of id2 ext title2 vd2]
    /\ id1 < id2.
Proof.
  intros Hid1 Ht1 Hid2 Ht2 Hb1 Hb2.
  destruct (save_to_database_ok vd1 tags1 name1 db ext title1 Hid1 Ht1 Hb1)
    as (rows1 & seq1 & Hrun1 & _).
  cbn zeta in Hrun1.
  set (id1 := next_rowid (videos_seq db) (map v_id (videos db))) in *.
  set (db1 := mk_database _ _ _ _ _ _ _) in Hrun1.
  destruct (save_to_database_one_row vd2 tags2 name2 db1 ext title2 Hid2 Ht2
                                     Hb2)
    as (id2 & db2 & Hrun2 & Hone).
  exists id1, db1, id2, db2. split; [exact Hrun1|]. split; [exact Hrun2|].
  split; [exact Hone|].
  destruct (save_to_database_ok vd2 tags2 name2 db1 ext title2 Hid2 Ht2 Hb2)
    as (rows2 & seq2 & Hrun2' & _).
  cbn zeta in Hrun2'. rewrite Hrun2 in Hrun2'. injection Hrun2' as -> _.
  subst db1. cbn [videos_seq]. apply next_rowid_above_seq.
Qed.

Lemma save_twice_replaces_witness :
  exists id1 db1 id2 db2,
    save_to_database
      (mk_video_data (Val "abc") (Val "first") (Val "u") Absent (Val 10)
                     Absent Absent (Val (VBool false)) (Val "a.mp4") Absent
                     Absent Absent (Val "completed"))
      None None empty_database = (Ok id1, db1)
    /\ save_to_database
         (mk_video_data (Val "abc") (Val "second") Null Absent (Val 20)
                        Absent Absent (Val (VBool true)) (Val "b.mp4") Absent
                        Absent Absent Absent)
         (Some ["x"]) None db1 = (Ok id2, db2)
    /\ filter (fun r => String.eqb (v_video_id r) "abc") (videos db2)
       = [video_row_of id2 "abc" "second"
            (mk_video_data (Val "abc") (Val "second") Null Absent (Val 20)
                           Absent Absent (Val (VBool true)) (Val "b.mp4")
                           Absent Absent Absent Absent)]
    /\ id1 < id2.
Proof.
  apply (save_twice_replaces _ _ None (Some ["x"]) None None empty_database
                             "abc" "first" "second");
    reflexivity.
Defined.

(** The second save of the same external id on an empty catalog, run:
    one row, rowid 2, the columns of the second record. *)
Example save_twice_run :
  let vd1 := mk_video_data (Val "abc") (Val "first") (Val "u") Absent (Val 10)
                           Absent Absent (Val (VBool false)) (Val "a.mp4")
                           Absent Absent Absent (Val "completed") in
  let vd2 := mk_video_data (Val "abc") (Val "second") Null Absent (Val 20)
                           Absent Absent (Val (VBool true)) (Val "b.mp4")
                           Absent Absent Absent Absent in
  let db1 := snd (save_to_database vd1 None None empty_database) in
  let db2 := snd (save_to_database vd2 None None db1) in
  videos db2
  = [mk_video_row 2 "abc" "second" None None (Some 20) None None (Some 1)
                  (Some "b.mp4") None None None (Some "completed")].
Proof. reflexivity. Qed.

(** C4, refuted as stated: two saves with the same external id, the
    second with a title that is [None].  The second INSERT aborts on the
    [NOT NULL] column: it raises [IntegrityError] and writes nothing, so
    that the one row of the external id still holds the values of the
    first save. *)
Lemma save_twice_null_title :
  let vd1 := mk_video_data (Val "abc") (Val "first") Absent Absent (Val 10)
                           Absent Absent Absent Absent Absent Absent Absent
                           Absent in
  let vd2 := mk_video_data (Val "abc") Null Absent Absent (Val 20)
                           Absent Absent Absent Absent Absent Absent Absent
                           Absent in
  let run1 := save_to_database vd1 None None empty_database in
  let run2 := save_to_database vd2 None None (snd run1) in
  fst run1 = Ok 1
  /\ fst run2 = Raise IntegrityError
  /\ filter (fun r => String.eqb (v_video_id r) "abc") (videos (snd run2))
     = [video_row_of 1 "abc" "first" vd1]
  /\ map v_duration (videos (snd run2)) = [Some 10].
Proof. repeat split; reflexivity. Qed.

(** The same with a second record whose duration is 2^63: the binding
    raises [OverflowError] and the row of the first save stays. *)
Example save_twice_overflow :
  let vd1 := mk_video_data (Val "abc") (Val "first") Absent Absent (Val 10)
                           Absent Absent Absent Absent Absent Absent Absent
                           Absent in
  let vd2 := mk_video_data (Val "abc") (Val "second") Absent Absent
                           (Val (2 ^ 63)) Absent Absent Absent Absent Absent
                           Absent Absent Absent in
  let run1 := save_to_database vd1 None None empty_database in
  let run2 := save_to_database vd2 None None (snd run1) in
  fst run2 = Raise OverflowError
  /\ map v_title (videos (snd run2)) = ["first"].
Proof. split; reflexivity. Qed.

Lemma tag_rows_pairs (rows : list tag_row) (id : Z) (l : list string) :
  map t_video_id rows = map (fun _ => id) l ->
  map t_tag rows = l ->
  map (fun r => (t_video_id r, t_tag r)) rows = map (pair id) l.
Proof.
  revert l. induction rows as [|r rows IH]; intros [|t l] Hids Htags;
    try discriminate; [reflexivity|].
  cbn in *. injection Hids as Hi Hids. injection Htags as Ht Htags.
  rewrite Hi, Ht. f_equal. now apply IH.
Qed.

(** C10. Saving again a record (with external id and title, integers
    within 64 bits) whose external id is held by a row [old] of the
    catalog: the save returns a rowid above the one of [old]; [old] is
    gone; the row of the record is in the table under the new rowid and
    it is the only row for the external id; every tag row and every playlist
    item of the catalog is still there unchanged (those of [old] keep
    pointing at its rowid, which no row holds any more); the tag rows
    added point at the new rowid, the first of them being ['YouTube'],
    with tag rowids above all earlier ones. *)
Theorem resave_assigns_fresh_rowid
        (vd : video_data) (tgs : option (list string)) (name : option string)
        (db : database) (ext title : string) (old : video_row) :
  vd_video_id vd = Val ext -> vd_title vd = Val title ->
  bindable vd = true ->
  In old (videos db) -> v_video_id old = ext ->
  exists new_id db' new_tags,
    save_to_database vd tgs name db = (Ok new_id, db')
    /\ v_id old < new_id
    /\ ~ In old (videos db')
    /\ In (video_row_of new_id ext title vd) (videos db')
    /\ filter (fun r => String.eqb (v_video_id r) ext) (videos db')
       = [video_row_of new_id ext title vd]
    /\ (forall r, In r (videos db') -> v_video_id r = ext -> v_id r = new_id)
    /\ tags db' = tags db ++ new_tags
    /\ playlist_items db' = playlist_items db
    /\ map (fun r => (t_video_id r, t_tag r)) new_tags
       = (new_id, "YouTube")
         :: map (pair new_id) (match tgs with Some ts => ts | None => [] end)
    /\ Forall (fun r => forall o, In o (tags db) -> t_id o < t_id r) new_tags.
Proof.
  intros Hid Htitle Hbind Hold Hext.
  destruct (save_to_database_ok vd tgs name db ext title Hid Htitle Hbind)
    as (rows & seq' & Hrun & Hids & Htags & Hfresh).
  cbn zeta in Hrun, Hids.
  set (new_id := next_rowid (videos_seq db) (map v_id (videos db))) in *.
  assert (Hlt : v_id old < new_id).
  { apply next_rowid_fresh. now apply in_map. }
  eexists new_id, _, rows. split; [exact Hrun|]. cbn [videos tags playlist_items].
  split; [exact Hlt|].
  split; [|split; [|split; [|split; [|split; [reflexivity|split;
    [reflexivity|split]]]]]].
  - intros Hin. apply in_app_or in Hin as [Hin|[Hin|[]]].
    + apply filter_In in Hin as [_ Hneq]. rewrite Hext, String.eqb_refl in Hneq.
      discriminate.
    + subst old. cbn in Hlt. lia.
  - apply in_or_app. right. now left.
  - rewrite filter_app, filter_other_ids. cbn. now rewrite String.eqb_refl.
  - intros r Hin Hr. apply in_app_or in Hin as [Hin|[Hin|[]]].
    + apply filter_In in Hin as [_ Hneq]. rewrite Hr, String.eqb_refl in Hneq.
      discriminate.
    + now subst r.
  - exact (tag_rows_pairs _ _ _ Hids Htags).
  - exact Hfresh.
Qed.

Lemma resave_assigns_fresh_rowid_witness :
  let vd := mk_video_data (Val "abc") (Val "first") Absent Absent Absent
                          Absent Absent Absent Absent Absent Absent Absent
                          Absent in
  let db := snd (save_to_database vd (Some ["music"]) None empty_database) in
  let old := video_row_of 1 "abc" "first" vd in
  exists new_id db' new_tags,
    save_to_database vd None None db = (Ok new_id, db')
    /\ v_id old < new_id
    /\ ~ In old (videos db')
    /\ In (video_row_of new_id "abc" "first" vd) (videos db')
    /\ filter (fun r => String.eqb (v_video_id r) "abc") (videos db')
       = [video_row_of new_id "abc" "first" vd]
    /\ (forall r, In r (videos db') -> v_video_id r = "abc" -> v_id r = new_id)
    /\ tags db' = tags db ++ new_tags
    /\ playlist_items db' = playlist_items db
    /\ map (fun r => (t_video_id r, t_tag r)) new_tags
       = (new_id, "YouTube") :: map (pair new_id) []
    /\ Forall (fun r => forall o, In o (tags db) -> t_id o < t_id r) new_tags.
Proof.
  intros vd db old.
  apply (resave_assigns_fresh_rowid vd None None db "abc" "first" old).
  - reflexivity.
  - reflexivity.
  - reflexivity.
  - left. reflexivity.
  - reflexivity.
Defined.

(** The same run, computed: the video keeps one row under the new rowid
    2, the tags of rowid 1 stay, and a second ['YouTube'] row is added. *)
Example resave_run :
  let vd := mk_video_data (Val "abc") (Val "first") Absent Absent Absent
                          Absent Absent Absent Absent Absent Absent Absent
                          Absent in
  let db := snd (save_to_database vd (Some ["music"]) None empty_database) in
  let db' := snd (save_to_database vd None None db) in
  map v_id (videos db') = [2]
  /\ tags db' = [mk_tag_row 1 1 "YouTube"; mk_tag_row 2 1 "music";
                 mk_tag_row 3 2 "YouTube"].
Proof. split; reflexivity. Qed.

(* ------------------------------------------------------------------ *)
(** ** Playlist ingestion *)
(* ------------------------------------------------------------------ *)

Lemma is_youtube_short_total (i : info) :
  not_null (info_web_page_url i) = true ->
  exists v, is_youtube_short i = Ok v.
Proof.
  intros Hurl. unfold is_youtube_short.
  destruct (info_web_page_url i) as [| |url]; [|discriminate|]; cbn [get_default];
    destruct (info_duration i) as [| |d], (info_width i) as [| |w],
             (info_height i) as [| |h]; cbn -[Z.eqb Z.leb Z.gtb contains];
    repeat match goal with
           | |- context [?x =? 0] =>
               is_var x; destruct (Z.eqb_spec x 0); subst;
               cbn -[Z.eqb Z.leb Z.gtb contains]
           end;
    eexists; reflexivity.
Qed.

Lemma sanitize_filename_total (f : field string) (default : string) :
  not_null f = true ->
  exists name, sanitize_filename (get_default f default) = Ok name.
Proof.
  destruct f; [|discriminate|]; intros _; eexists; reflexivity.
Qed.

(** The classifier returns [None], [0] or a [bool]: a value that can
    always be bound. *)
Lemma is_youtube_short_flag (i : info) (v : value) :
  is_youtube_short i = Ok v ->
  bindable_int (adapt_flag (Some v)) = true.
Proof.
  unfold is_youtube_short.
  destruct (get_default (info_web_page_url i) "") as [url|];
    [|destruct (info_duration i) as [| |d], (info_width i) as [| |w],
               (info_height i) as [| |h]; cbn -[Z.eqb Z.leb Z.gtb contains];
      repeat match goal with
             | |- context [?x =? 0] =>
                 is_var x; destruct (Z.eqb_spec x 0); subst;
                 cbn -[Z.eqb Z.leb Z.gtb contains]
             end; discriminate].
  destruct (contains shorts_marker url);
    destruct (info_duration i) as [| |d], (info_width i) as [| |w],
             (info_height i) as [| |h]; cbn -[Z.eqb Z.leb Z.gtb contains];
    repeat match goal with
           | |- context [?x =? 0] =>
               is_var x; destruct (Z.eqb_spec x 0); subst;
               cbn -[Z.eqb Z.leb Z.gtb contains]
           end;
    repeat match goal with
           | |- context [?a <=? ?b] =>
               destruct (a <=? b); cbn -[Z.eqb Z.leb Z.gtb contains]
           | |- context [?a >? ?b] =>
               destruct (a >? b); cbn -[Z.eqb Z.leb Z.gtb contains]
           end;
    intros H; injection H as <-; reflexivity.
Qed.

(** The record built from a storable download and a flag of the
    classifier can be bound. *)
Lemma downloaded_data_bindable (prepare_filename : info -> string)
      (now url : string) (probe i : info) (v : value) :
  is_youtube_short probe = Ok v ->
  storable i = true ->
  bindable (downloaded_data prepare_filename now url v i) = true.
Proof.
  intros Hv Hst. unfold storable in Hst. repeat rewrite andb_true_iff in Hst.
  destruct Hst as [[_ Hd] Hc]. unfold bindable. cbn [downloaded_data
    vd_duration vd_view_count vd_is_short get_default].
  rewrite (is_youtube_short_flag probe v Hv), andb_true_r.
  destruct (info_duration i), (info_view_count i); cbn in *;
    rewrite ?Hd, ?Hc; reflexivity.
Qed.

(** The steps of [download_video] between the two extractions, on a
    probed record that can be prepared: they hand on the flag of the
    classifier. *)
Lemma download_video_prepared (mkdir : string -> string -> result unit)
      (probe : info) :
  probe_well_formed mkdir probe = true ->
  exists v,
    is_youtube_short probe = Ok v
    /\ (let? is_short := is_youtube_short probe in
        let? uploader :=
          sanitize_filename (get_default (info_uploader probe) "Unknown") in
        let? title :=
          sanitize_filename (get_default (info_title probe) "Untitled") in
        let? _ := mkdir (if truthy is_short then "shorts" else "videos")
                        uploader in
        Ok is_short)%result = Ok v.
Proof.
  unfold probe_well_formed. intros H. repeat rewrite andb_true_iff in H.
  destruct H as [[[Hurl Hup] Hti] Hdir]. unfold output_dir_made, bucket in Hdir.
  destruct (is_youtube_short_total probe Hurl) as [v Hv]. rewrite Hv in *.
  destruct (sanitize_filename_total (info_uploader probe) "Unknown" Hup)
    as [u Hu]. rewrite Hu in *.
  destruct (sanitize_filename_total (info_title probe) "Untitled" Hti)
    as [t ->].
  exists v. split; [reflexivity|]. cbn [rbind].
  destruct (mkdir _ u); [reflexivity | discriminate].
Qed.

Section IngestionFacts.

Variable extract_info : string -> bool -> string + info.
Variable extract_flat : string -> string + playlist_info.
Variable mkdir : string -> string -> result unit.
Variable prepare_filename : info -> string.
Variable now : string.


(** On well-formed metadata [download_video] returns a result: an
    error when one of the two extractions fails, a success otherwise.
    It writes no playlist item. *)
Lemma download_video_returns (e : entry) (custom_tags : option (list string))
      (playlist_name : option string) (db : database) :
  entry_well_formed extract_info mkdir e = true ->
  exists r db',
    download_video extract_info mkdir prepare_filename now
                   (entry_video_url e) custom_tags playlist_name db
    = (Ok r, db')
    /\ is_success r = entry_retrieved extract_info e
    /\ playlist_items db' = playlist_items db
    /\ playlists db' = playlists db.
Proof.
  unfold entry_well_formed, entry_retrieved, download_video.
  destruct (extract_info (entry_video_url e) false) as [msg|probe].
  - intros _. eexists _, _. repeat split.
  - intros H. apply andb_true_iff in H as [Hprobe Hdl].
    destruct (download_video_prepared mkdir probe Hprobe) as (v & Hv & ->).
    destruct (extract_info (entry_video_url e) true) as [msg|i].
    + eexists _, _. repeat split.
    + pose proof (downloaded_data_bindable prepare_filename now
                    (entry_video_url e) probe i v Hv Hdl) as Hbind.
      unfold storable in Hdl. repeat rewrite andb_true_iff in Hdl.
      destruct Hdl as [[[Hid Htitle] _] _].
      destruct (info_id i) as [| |ext] eqn:Eid; try discriminate.
      destruct (info_title i) as [| |title] eqn:Et; try discriminate.
      unfold downloaded_data in Hbind. rewrite Eid, Et in Hbind.
      match goal with
      | |- context [save_to_database ?vd ?tg ?pn ?d] =>
          destruct (save_to_database_ok vd tg pn d ext title eq_refl eq_refl
                                        Hbind)
            as (rows & seq' & Hrun & _)
      end.
      cbn zeta in Hrun. cbn [get field_of] in *. rewrite Hrun.
      eexists _, _. repeat split.
Qed.

(** The loop of [download_playlist] on well-formed entries: it goes
    through every entry, appends one result per entry, and appends one
    playlist item per success, at the index of the entry. *)
Lemma download_entries_returns (custom_tags : option (list string))
      (playlist_name : option string) (db_playlist_id : Z)
      (entries : list entry) :
  forallb (entry_well_formed extract_info mkdir) entries = true ->
  forall (idx : Z) (results : list video_result) (db : database),
  exists rs db',
    download_entries extract_info mkdir prepare_filename now
                     custom_tags playlist_name db_playlist_id idx entries
                     results db
    = (Ok (results ++ rs), db')
    /\ map is_success rs = map (entry_retrieved extract_info) entries
    /\ playlist_items db'
       = playlist_items db ++ items_of db_playlist_id idx rs
    /\ playlists db' = playlists db.
Proof.
  induction entries as [|e entries IH]; intros Hwf idx results db.
  - exists [], db. cbn. now rewrite !app_nil_r.
  - cbn in Hwf. apply andb_true_iff in Hwf as [He Hrest].
    destruct (download_video_returns e custom_tags playlist_name db He)
      as (r & db1 & Hrun & Hsucc & Hitems & Hpl).
    cbn [download_entries]. rewrite Hrun.
    destruct r as [msg|vid title flag db_id].
    + destruct (IH Hrest (idx + 1) (results ++ [VideoError msg]) db1)
        as (rs & db' & Hloop & Hflags & Hrows & Hpl').
      rewrite Hloop.
      exists (VideoError msg :: rs), db'. rewrite <- app_assoc. cbn.
      repeat split.
      * now rewrite <- Hsucc, Hflags.
      * now rewrite Hrows, Hitems.
      * now rewrite Hpl'.
    + unfold insert_playlist_item.
      change (execute sql_insert_playlist_item) with (Ok tt). cbn iota.
      set (db2 := mk_database _ _ _ _ _ _ _).
      destruct (IH Hrest (idx + 1)
                   (results ++ [VideoSuccess vid title flag db_id]) db2)
        as (rs & db' & Hloop & Hflags & Hrows & Hpl').
      rewrite Hloop.
      exists (VideoSuccess vid title flag db_id :: rs), db'.
      rewrite <- app_assoc. cbn. repeat split.
      * now rewrite <- Hsucc, Hflags.
      * rewrite Hrows. subst db2. cbn [playlist_items].
        rewrite Hitems, <- app_assoc. reflexivity.
      * rewrite Hpl'. subst db2. cbn [playlists]. exact Hpl.
Qed.

End IngestionFacts.

Lemma find_some_of_existsb {A : Type} (f : A -> bool) (l : list A) :
  existsb f l = true -> exists x, find f l = Some x.
Proof.
  induction l as [|a l IH]; cbn; [discriminate|].
  destruct (f a); [now exists a | exact IH].
Qed.

Lemma find_appended {A : Type} (f : A -> bool) (l : list A) (x : A) :
  existsb f l = false -> f x = true -> find f (l ++ [x]) = Some x.
Proof.
  induction l as [|a l IH]; cbn; intros Hl Hx.
  - now rewrite Hx.
  - apply orb_false_iff in Hl as [-> Hl]. now apply IH.
Qed.

(** A listing with an external id and a name gets its playlist row, new
    or already there, and the rowid of that row is read back. *)
Lemma playlist_row_selected (pid name : string) (description : option string)
      (created : string) (db : database) :
  exists row db1,
    insert_or_ignore_playlist (Some pid) (Some name) description created db
    = (Ok tt, db1)
    /\ select_playlist_id (Some pid) db1 = (Ok (p_id row), db1)
    /\ find (same_playlist (Some pid)) (playlists db1) = Some row
    /\ playlist_items db1 = playlist_items db.
Proof.
  unfold insert_or_ignore_playlist, select_playlist_id.
  change (execute sql_insert_playlist) with (Ok tt).
  change (execute sql_select_playlist) with (Ok tt). cbn iota zeta.
  destruct (existsb (same_playlist (Some pid)) (playlists db)) eqn:E.
  - destruct (find_some_of_existsb _ _ E) as [row Hrow].
    exists row. eexists. split; [reflexivity|]. cbn [playlists playlist_items].
    rewrite Hrow. auto.
  - eexists _, _. split; [reflexivity|]. cbn [playlists playlist_items].
    rewrite (find_appended _ _ _ E); [auto|].
    cbn. apply String.eqb_refl.
Qed.

Lemma find_same_playlist (pid : string) (rows : list playlist_row)
      (row : playlist_row) :
  find (same_playlist (Some pid)) rows = Some row ->
  In row rows /\ p_playlist_id row = Some pid.
Proof.
  intros H. apply find_some in H as [Hin Hsame]. split; [exact Hin|].
  unfold same_playlist in Hsame.
  destruct (p_playlist_id row) as [a|]; [|discriminate].
  apply String.eqb_eq in Hsame. now subst.
Qed.

Lemma items_of_positions (db_playlist_id idx : Z) (results : list video_result) :
  map pi_position (items_of db_playlist_id idx results)
  = positions_of idx (map is_success results)
  /\ Forall (fun row => pi_playlist_id row = db_playlist_id)
            (items_of db_playlist_id idx results).
Proof.
  revert idx. induction results as [|r results IH]; intros idx; cbn.
  - split; [reflexivity | constructor].
  - destruct (IH (idx + 1)) as [Hpos Hall].
    destruct r; cbn; [exact (conj Hpos Hall)|].
    split; [now rewrite Hpos | now constructor].
Qed.

(** C5, refuted as stated: a listing of three entries, all retrieved,
    the first with [None] as uploader.  [sanitize_filename] raises
    [TypeError] on it, which nothing catches: [download_playlist] raises
    instead of returning a report, and the two other entries are never
    processed (no video, no playlist item is written). *)
Lemma download_playlist_aborts :
  let run :=
    download_playlist anonymous_extract sample_flat sample_mkdir sample_filename
                      "2024-01-01T00:00:00" "https://www.youtube.com/playlist?list=PL1"
                      None empty_database in
  fst run = Raise TypeError
  /\ videos (snd run) = []
  /\ playlist_items (snd run) = [].
Proof. repeat split; reflexivity. Qed.

(** The same happens for an entry retrieved without a title: the INSERT
    of [save_to_database] raises [IntegrityError]. *)
Example download_playlist_aborts_untitled :
  let run :=
    download_playlist untitled_extract sample_flat sample_mkdir sample_filename
                      "2024-01-01T00:00:00" "https://www.youtube.com/playlist?list=PL1"
                      None empty_database in
  fst run = Raise IntegrityError
  /\ videos (snd run) = []
  /\ playlist_items (snd run) = [].
Proof. repeat split; reflexivity. Qed.

(** C5, amended: when the listing has an external id, a name that is not
    [None] and a list of [n] entries whose metadata can be processed
    ([entry_well_formed]: each one fails inside the extractor, or its
    probe yields a record with no [None] uploader, title or URL whose
    output directory can be made, and its download fails or yields a
    record with id and title whose integers fit 64 bits),
    [download_playlist] returns a success report with one result per
    entry, in order; a result is a success exactly when both extractions
    of its entry succeeded; and the playlist items appended are those of
    the successes, each at the 0-based index of its entry and under the
    rowid of the row of [playlists] that holds the external id of the
    listing. *)
Theorem download_playlist_itemizes
        (extract_info : string -> bool -> string + info)
        (extract_flat : string -> string + playlist_info)
        (mkdir : string -> string -> result unit)
        (prepare_filename : info -> string) (now : string)
        (playlist_url : string) (custom_tags : option (list string))
        (db : database) (listing : playlist_info) (pid : string)
        (entries : list entry) :
  extract_flat playlist_url = inr listing ->
  playlist_ext_id listing = Val pid ->
  not_null (playlist_title listing) = true ->
  get_default (playlist_entries listing) [] = Some entries ->
  forallb (entry_well_formed extract_info mkdir) entries = true ->
  exists name results db' row,
    download_playlist extract_info extract_flat mkdir prepare_filename now
                      playlist_url custom_tags db
    = (Ok (PlaylistSuccess name (Z.of_nat (List.length entries)) results), db')
    /\ List.length results = List.length entries
    /\ map is_success results = map (entry_retrieved extract_info) entries
    /\ In row (playlists db') /\ p_playlist_id row = Some pid
    /\ playlist_items db'
       = playlist_items db ++ items_of (p_id row) 0 results
    /\ map pi_position (items_of (p_id row) 0 results)
       = positions_of 0 (map (entry_retrieved extract_info) entries).
Proof.
  intros Hflat Hpid Hname Hentries Hwf. unfold download_playlist.
  rewrite Hflat, Hpid, Hentries. cbn [get].
  destruct (playlist_title listing) as [| |name] eqn:Etitle; [|discriminate|];
    cbn [get_default].
  all: match goal with
       | |- context [insert_or_ignore_playlist (Some ?p) (Some ?n) ?d ?c ?b] =>
           destruct (playlist_row_selected p n d c b)
             as (row & db1 & Hins & Hsel & Hfind & Hitems)
       end;
    rewrite Hins, Hsel;
    match goal with
    | |- context [download_entries _ _ _ _ ?tg ?pn _ _ _ _ _] =>
        destruct (download_entries_returns extract_info mkdir prepare_filename now
                    tg pn (p_id row) entries Hwf 0 [] db1)
          as (rs & db' & Hloop & Hflags & Hrows & Hpl)
    end;
    rewrite Hloop; cbn [app] in *;
    apply find_same_playlist in Hfind as [Hin Hrowid];
    eexists _, rs, db', row; (split; [reflexivity|]);
    repeat split.
  all: try (rewrite <- (length_map is_success), Hflags; apply length_map).
  all: try exact Hflags.
  all: try (rewrite Hpl; exact Hin).
  all: try exact Hrowid.
  all: try (rewrite Hrows, Hitems; reflexivity).
  all: rewrite <- Hflags; apply items_of_positions.
Qed.

Lemma download_playlist_itemizes_witness :
  let entries := [mk_entry Absent (Val "a") Absent;
                  mk_entry Absent (Val "b") Absent;
                  mk_entry Absent (Val "c") Absent] in
  exists name results db' row,
    download_playlist sample_extract sample_flat sample_mkdir sample_filename
                      "2024-01-01T00:00:00"
                      "https://www.youtube.com/playlist?list=PL1"
                      (Some ["music"]) empty_database
    = (Ok (PlaylistSuccess name (Z.of_nat (List.length entries)) results), db')
    /\ List.length results = List.length entries
    /\ map is_success results = map (entry_retrieved sample_extract) entries
    /\ In row (playlists db') /\ p_playlist_id row = Some "PL1"
    /\ playlist_items db'
       = playlist_items empty_database ++ items_of (p_id row) 0 results
    /\ map pi_position (items_of (p_id row) 0 results)
       = positions_of 0 (map (entry_retrieved sample_extract) entries).
Proof.
  intro entries.
  apply (download_playlist_itemizes
           sample_extract sample_flat sample_mkdir sample_filename
           "2024-01-01T00:00:00" "https://www.youtube.com/playlist?list=PL1"
           (Some ["music"]) empty_database sample_listing "PL1" entries);
    reflexivity.
Defined.

(** The playlist of three entries whose second entry fails, run on an
    empty catalog: three results, two of them successes, and two
    playlist items, at positions 0 and 2. *)
Example download_playlist_three_entries :
  let run :=
    download_playlist sample_extract sample_flat sample_mkdir sample_filename
                      "2024-01-01T00:00:00"
                      "https://www.youtube.com/playlist?list=PL1"
                      (Some ["music"]) empty_database in
  fst run
  = Ok (PlaylistSuccess (Some "Sample") 3
          [VideoSuccess (Some "a") (Some "Title a") (VBool true) 1;
           VideoError "ERROR: Video unavailable";
           VideoSuccess (Some "c") (Some "Title c") (VBool true) 2])
  /\ playlist_items (snd run)
     = [mk_playlist_item_row 1 1 0; mk_playlist_item_row 1 2 2].
Proof. split; reflexivity. Qed.

(* ------------------------------------------------------------------ *)
(** ** The URL asked for and the classifier *)
(* ------------------------------------------------------------------ *)

(** C2, as the code behaves: the classifier looks for the marker under
    the key ['web_page_url'] of the probed record, a key that no code
    sets (the key of the extractor is ['webpage_url']), and
    [download_video] never hands it the URL that it was asked for, which
    only goes to the column [original_url].  So for every URL, with the
    marker [/shorts/] or without, whose probed record has no such key
    and can be processed, the flag returned and stored is that of the
    shape alone: the row of the video holds the URL asked for, and its
    [is_short] column is 1 exactly when the probed record is short and
    vertical. *)
Theorem download_video_ignores_url
        (extract_info : string -> bool -> string + info)
        (mkdir : string -> string -> result unit)
        (prepare_filename : info -> string) (now : string)
        (url : string) (custom_tags : option (list string))
        (playlist_name : option string) (db : database) (probe i : info) :
  extract_info url false = inr probe ->
  info_web_page_url probe = Absent ->
  probe_well_formed mkdir probe = true ->
  extract_info url true = inr i ->
  storable i = true ->
  exists vid title flag rowid db' row,
    download_video extract_info mkdir prepare_filename now
                   url custom_tags playlist_name db
    = (Ok (VideoSuccess vid title flag rowid), db')
    /\ truthy flag = short_by_shape probe
    /\ In row (videos db')
    /\ v_id row = rowid
    /\ v_original_url row = Some url
    /\ is_short_is true row = short_by_shape probe.
Proof.
  intros Hprobe Hkey Hwf Hdl Hst.
  destruct (download_video_prepared mkdir probe Hwf) as (v & Hv & Hprep).
  destruct (is_youtube_short_by_shape probe "") as (v' & Hv' & Hiff & Htruthy);
    [now rewrite Hkey | reflexivity |].
  rewrite Hv in Hv'. injection Hv' as <-.
  pose proof (downloaded_data_bindable prepare_filename now url probe i v
                Hv Hst) as Hbind.
  unfold storable in Hst. repeat rewrite andb_true_iff in Hst.
  destruct Hst as [[[Hid Htitle] _] _].
  destruct (info_id i) as [| |ext] eqn:Eid; try discriminate.
  destruct (info_title i) as [| |title] eqn:Et; try discriminate.
  unfold downloaded_data in Hbind. rewrite Eid, Et in Hbind.
  unfold download_video. rewrite Hprobe, Hprep, Hdl, Eid, Et.
  match goal with
  | |- context [save_to_database ?vd ?tg ?pn ?d] =>
      destruct (save_to_database_ok vd tg pn d ext title eq_refl eq_refl
                                    Hbind)
        as (rows & seq' & Hrun & _)
  end.
  cbn zeta in Hrun. cbn [get field_of] in *. rewrite Hrun.
  eexists _, _, v, _, _, (video_row_of _ ext title _).
  split; [reflexivity|]. split; [exact Htruthy|].
  split; [cbn [videos]; apply in_or_app; right; left; reflexivity|].
  split; [reflexivity|]. split; [reflexivity|].
  rewrite <- Htruthy. unfold is_short_is. cbn.
  destruct v as [|[|]|z]; cbn; try reflexivity.
  destruct (Z.eqb_spec z 0) as [->|Hz]; [reflexivity|].
  exfalso. cbn in Htruthy.
  assert (Hs : short_by_shape probe = true).
  { rewrite <- Htruthy. apply negb_true_iff. now apply Z.eqb_neq. }
  apply Hiff in Hs. discriminate.
Qed.

Lemma download_video_ignores_url_witness :
  exists vid title flag rowid db' row,
    download_video landscape_extract sample_mkdir sample_filename
                   "2024-01-01T00:00:00"
                   "https://www.youtube.com/shorts/abc" None None
                   empty_database
    = (Ok (VideoSuccess vid title flag rowid), db')
    /\ truthy flag = short_by_shape landscape_info
    /\ In row (videos db')
    /\ v_id row = rowid
    /\ v_original_url row = Some "https://www.youtube.com/shorts/abc"
    /\ is_short_is true row = short_by_shape landscape_info.
Proof.
  apply (download_video_ignores_url
           landscape_extract sample_mkdir sample_filename
           "2024-01-01T00:00:00" "https://www.youtube.com/shorts/abc"
           None None empty_database landscape_info landscape_info);
    reflexivity.
Defined.

(** The failing input, run: a two-minute horizontal video asked for by
    a URL that holds the marker is reported and stored as not a short. *)
Example download_video_shorts_url :
  let url := "https://www.youtube.com/shorts/abc" in
  let run :=
    download_video landscape_extract sample_mkdir sample_filename
                   "2024-01-01T00:00:00" url None None empty_database in
  contains shorts_marker url = true
  /\ fst run = Ok (VideoSuccess (Some "abc") (Some "Long") (VBool false) 1)
  /\ map v_is_short (videos (snd run)) = [Some 0]
  /\ map v_original_url (videos (snd run)) = [Some url].
Proof. repeat split; reflexivity. Qed.

(* ------------------------------------------------------------------ *)
(** ** Decimal text of integers *)
(* ------------------------------------------------------------------ *)

Lemma digit_char_spec (d : Z) :
  0 <= d < 10 ->
  is_digit (digit_char d) = true /\ digit_value (digit_char d) = d.
Proof.
  intros H.
  assert (C : d = 0 \/ d = 1 \/ d = 2 \/ d = 3 \/ d = 4 \/ d = 5 \/ d = 6
              \/ d = 7 \/ d = 8 \/ d = 9) by lia.
  repeat destruct C as [->|C]; try subst d; split; reflexivity.
Qed.

Lemma digit_not_space (c : ascii) : is_digit c = true -> is_space c = false.
Proof.
  unfold is_digit, is_space. generalize (nat_of_ascii c) as n. intros n H.
  apply andb_true_iff in H as [H1 H2].
  apply Nat.leb_le in H1. apply Nat.leb_le in H2.
  repeat (apply orb_false_iff; split).
  - apply andb_false_iff. right. apply Nat.leb_gt. lia.
  - apply andb_false_iff. right. apply Nat.leb_gt. lia.
  - apply Nat.eqb_neq. lia.
  - apply Nat.eqb_neq. lia.
Qed.

Lemma digit_not_char (c x : ascii) :
  is_digit c = true -> is_digit x = false -> Ascii.eqb c x = false.
Proof.
  intros Hc Hx. destruct (Ascii.eqb_spec c x) as [->|]; [congruence | reflexivity].
Qed.

Lemma digits_of_all_digits (fuel : nat) (n : Z) :
  0 <= n -> all_digits (digits_of fuel n).
Proof.
  revert n. induction fuel as [|fuel IH]; intros n Hn; cbn; [constructor|].
  constructor.
  - apply digit_char_spec. apply Z.mod_pos_bound. lia.
  - destruct (n <? 10); [constructor|]. apply IH. apply Z.div_pos; lia.
Qed.

Lemma digits_of_value (fuel : nat) (n : Z) :
  0 <= n < 10 ^ Z.of_nat fuel ->
  fold_right (fun c acc => acc * 10 + digit_value c) 0 (digits_of fuel n) = n.
Proof.
  revert n. induction fuel as [|fuel IH]; intros n Hn.
  - cbn in *. lia.
  - cbn [digits_of fold_right].
    destruct (digit_char_spec (n mod 10)) as [_ ->];
      [apply Z.mod_pos_bound; lia|].
    destruct (Z.ltb_spec n 10) as [Hlt|Hge].
    + cbn. rewrite Z.mod_small; lia.
    + rewrite IH.
      * pose proof (Z.div_mod n 10 ltac:(lia)). lia.
      * split; [apply Z.div_pos; lia|].
        apply Z.div_lt_upper_bound; [lia|].
        rewrite Nat2Z.inj_succ, Z.pow_succ_r in Hn; lia.
Qed.

Lemma log2_fuel_enough (n : Z) :
  0 <= n -> n < 10 ^ Z.of_nat (S (Z.to_nat (Z.log2 n))).
Proof.
  intros Hn. rewrite Nat2Z.inj_succ, Z2Nat.id by apply Z.log2_nonneg.
  destruct (Z.eq_dec n 0) as [->|Hnz]; [cbn; lia|].
  assert (H : n < 2 ^ Z.succ (Z.log2 n)) by (apply Z.log2_spec; lia).
  eapply Z.lt_le_trans; [exact H|].
  apply Z.pow_le_mono_l. lia.
Qed.

Lemma literal_value_digits (l : list ascii) (acc : Z) (after_digit : bool) :
  all_digits l -> l <> [] ->
  literal_value acc after_digit l
  = Some (fold_left (fun a c => a * 10 + digit_value c) l acc).
Proof.
  revert acc after_digit. induction l as [|c l IH]; intros acc b Hall Hne;
    [congruence|].
  inversion Hall as [|? ? Hc Hl]; subst. cbn. rewrite Hc.
  destruct l as [|c' l']; [reflexivity|]. now apply IH.
Qed.

Lemma lstrip_digits (l : list ascii) : all_digits l -> lstrip l = l.
Proof.
  intros Hall. destruct l as [|c l]; [reflexivity|].
  inversion Hall; subst. cbn. now rewrite digit_not_space.
Qed.

Lemma all_digits_rev (l : list ascii) : all_digits l -> all_digits (rev l).
Proof. apply Forall_rev. Qed.

Lemma strip_digits (l : list ascii) : all_digits l -> strip l = l.
Proof.
  intros Hall. unfold strip.
  rewrite (lstrip_digits l Hall), (lstrip_digits _ (all_digits_rev _ Hall)).
  apply rev_involutive.
Qed.

Lemma str_nonneg_text (n : Z) :
  0 <= n -> str n = string_of_list_ascii (digits_text n).
Proof.
  intros Hn. unfold str. destruct (Z.ltb_spec n 0); [lia | reflexivity].
Qed.

Lemma digits_text_all_digits (n : Z) : 0 <= n -> all_digits (digits_text n).
Proof.
  intros Hn. apply all_digits_rev. now apply digits_of_all_digits.
Qed.

Lemma digits_text_nonempty (n : Z) : digits_text n <> [].
Proof.
  unfold digits_text. cbn [digits_of]. intros H.
  apply (f_equal (@List.length ascii)) in H.
  rewrite length_rev in H. cbn in H. discriminate.
Qed.

(** [int(str(n)) == n] for [n >= 0]. *)
Lemma int_str (n : Z) : 0 <= n -> int (str n) = Ok n.
Proof.
  intros Hn. rewrite (str_nonneg_text n Hn). unfold int.
  rewrite list_ascii_of_string_of_list_ascii.
  pose proof (digits_text_all_digits n Hn) as Hall.
  pose proof (digits_text_nonempty n) as Hne.
  rewrite (strip_digits _ Hall).
  destruct (digits_text n) as [|c l] eqn:E; [congruence|].
  assert (Hc : is_digit c = true) by now inversion Hall.
  rewrite (digit_not_char c "-" Hc eq_refl), (digit_not_char c "+" Hc eq_refl).
  rewrite (literal_value_digits _ 0 false Hall) by congruence.
  rewrite <- E. unfold digits_text.
  rewrite <- fold_left_rev_right, rev_involutive.
  rewrite digits_of_value; [reflexivity|].
  split; [exact Hn | now apply log2_fuel_enough].
Qed.

(* ------------------------------------------------------------------ *)
(** ** Parsing of the range header *)
(* ------------------------------------------------------------------ *)

Lemma prefix_bytes_digit (c : ascii) (s : string) :
  is_digit c = true -> String.prefix "bytes=" (String c s) = false.
Proof.
  intros Hc. cbn [String.prefix].
  destruct (Ascii.ascii_dec "b" c) as [<-|]; [discriminate | reflexivity].
Qed.

Lemma remove_from_digits (l : list ascii) (rest : string) :
  all_digits l ->
  remove_from "bytes=" 0 (string_of_list_ascii l ++ rest)
  = (string_of_list_ascii l ++ remove_from "bytes=" 0 rest)%string.
Proof.
  induction 1 as [|c l Hc Hl IH]; [reflexivity|].
  cbn [string_of_list_ascii append remove_from].
  rewrite (prefix_bytes_digit c _ Hc). now rewrite IH.
Qed.

Lemma remove_from_unit (t : string) :
  remove_from "bytes=" 0 ("bytes=" ++ t) = remove_from "bytes=" 0 t.
Proof.
  transitivity
    (if String.prefix "bytes=" ("bytes=" ++ t)
     then remove_from "bytes=" 5 ("ytes=" ++ t)
     else String "b" (remove_from "bytes=" 0 ("ytes=" ++ t)));
    [reflexivity|].
  rewrite prefix_app. reflexivity.
Qed.

Lemma remove_from_dash (t : string) :
  remove_from "bytes=" 0 (String "-" t)
  = String "-" (remove_from "bytes=" 0 t).
Proof. reflexivity. Qed.

Lemma append_empty_r (s : string) : (s ++ "")%string = s.
Proof. induction s as [|c s IH]; cbn; [reflexivity | now rewrite IH]. Qed.

Lemma remove_all_range (ds de : list ascii) :
  all_digits ds -> all_digits de ->
  remove_all "bytes="
             ("bytes=" ++ string_of_list_ascii ds
              ++ "-" ++ string_of_list_ascii de)
  = (string_of_list_ascii ds ++ "-" ++ string_of_list_ascii de)%string.
Proof.
  intros Hs He. unfold remove_all.
  rewrite remove_from_unit, (remove_from_digits ds _ Hs). f_equal.
  change ("-" ++ ?t)%string with (String "-" t).
  rewrite remove_from_dash. f_equal.
  rewrite <- (append_empty_r (string_of_list_ascii de)) at 1.
  rewrite (remove_from_digits de "" He). cbn [remove_from].
  apply append_empty_r.
Qed.

Lemma split_on_digits (l : list ascii) :
  all_digits l ->
  split_on "-" (string_of_list_ascii l) = [string_of_list_ascii l].
Proof.
  induction 1 as [|c l Hc Hl IH]; [reflexivity|].
  cbn [string_of_list_ascii split_on].
  rewrite (digit_not_char c "-" Hc eq_refl), IH. reflexivity.
Qed.

Lemma split_on_digits_sep (l : list ascii) (rest : string) :
  all_digits l ->
  split_on "-" (string_of_list_ascii l ++ String "-" rest)
  = string_of_list_ascii l :: split_on "-" rest.
Proof.
  induction 1 as [|c l Hc Hl IH]; [reflexivity|].
  cbn [string_of_list_ascii append split_on].
  rewrite (digit_not_char c "-" Hc eq_refl), IH. reflexivity.
Qed.

(** A header [bytes=<digits>-<digits>], the second run of digits
    possibly empty, is parsed into the two bounds. *)
Lemma parse_range_digits (ds de : list ascii) (file_size first last : Z) :
  all_digits ds -> all_digits de ->
  int (string_of_list_ascii ds) = Ok first ->
  (de = [] /\ last = file_size - 1
   \/ de <> [] /\ int (string_of_list_ascii de) = Ok last) ->
  parse_range ("bytes=" ++ string_of_list_ascii ds
               ++ "-" ++ string_of_list_ascii de) file_size
  = Ok (first, last).
Proof.
  intros Hs He Hfirst Hlast. unfold parse_range.
  rewrite (remove_all_range ds de Hs He).
  change ("-" ++ ?t)%string with (String "-" t).
  rewrite (split_on_digits_sep ds _ Hs), (split_on_digits de He).
  cbn [item nth_error rbind]. rewrite Hfirst. cbn [rbind].
  destruct Hlast as [[-> ->]|[Hne Hint]]; [reflexivity|].
  destruct de as [|c de]; [congruence|].
  cbn [string_of_list_ascii] in *. rewrite Hint. reflexivity.
Qed.

Lemma parse_range_closed (file_size first last : Z) :
  0 <= first -> 0 <= last ->
  parse_range ("bytes=" ++ str first ++ "-" ++ str last) file_size
  = Ok (first, last).
Proof.
  intros Hf Hl. rewrite (str_nonneg_text first Hf), (str_nonneg_text last Hl).
  apply parse_range_digits; auto using digits_text_all_digits.
  - rewrite <- (str_nonneg_text first Hf). now apply int_str.
  - right. split; [apply digits_text_nonempty|].
    rewrite <- (str_nonneg_text last Hl). now apply int_str.
Qed.

Lemma parse_range_open (file_size first : Z) :
  0 <= first ->
  parse_range ("bytes=" ++ str first ++ "-") file_size
  = Ok (first, file_size - 1).
Proof.
  intros Hf. rewrite (str_nonneg_text first Hf).
  apply (parse_range_digits (digits_text first) []);
    auto using digits_text_all_digits.
  - constructor.
  - rewrite <- (str_nonneg_text first Hf). now apply int_str.
Qed.

(* ------------------------------------------------------------------ *)
(** ** The body of a partial response *)
(* ------------------------------------------------------------------ *)

Lemma firstn_plus {A : Type} (a b : nat) (l : list A) :
  firstn (a + b) l = firstn a l ++ firstn b (skipn a l).
Proof.
  revert l. induction a as [|a IH]; intros l; [reflexivity|].
  destruct l as [|x l]; cbn; [now rewrite firstn_nil | now rewrite IH].
Qed.

(** The generator reads on until [remaining] bytes are sent or the file
    ends: whatever the bound, the chunks make up the first [remaining]
    bytes of [f], and each chunk holds between 1 and 8192 bytes. *)
Lemma iterfile_loop_spec (fuel : nat) (f : list byte) (remaining : Z) :
  (List.length f < fuel)%nat ->
  List.concat (iterfile_loop fuel f remaining) = firstn (Z.to_nat remaining) f
  /\ Forall (fun chunk => 0 < Z.of_nat (List.length chunk) <= 8192)
            (iterfile_loop fuel f remaining).
Proof.
  revert f remaining. induction fuel as [|fuel IH]; intros f remaining Hfuel;
    [lia|].
  cbn [iterfile_loop]. rewrite Z.gtb_ltb.
  destruct (Z.ltb_spec 0 remaining) as [Hpos|Hle].
  2:{ replace (Z.to_nat remaining) with 0%nat by lia. split; [reflexivity|constructor]. }
  set (k := Z.to_nat (Z.min 8192 remaining)).
  assert (Hk : 0 < Z.of_nat k <= 8192) by lia.
  assert (Hkr : (k <= Z.to_nat remaining)%nat) by lia.
  destruct (firstn k f) as [|b chunk] eqn:Echunk.
  - assert (f = []) as ->.
    { destruct f as [|x f]; [reflexivity|].
      destruct k; [lia | discriminate]. }
    rewrite firstn_nil. split; [reflexivity|constructor].
  - rewrite <- Echunk.
    set (c := List.length (firstn k f)).
    assert (Hc : c = Nat.min k (List.length f)) by apply length_firstn.
    assert (Hc0 : (0 < c)%nat) by (unfold c; rewrite Echunk; cbn; lia).
    assert (Hsame : firstn k f = firstn c f).
    { destruct (Nat.min_spec k (List.length f)) as [[_ E]|[Hlen E]];
        rewrite Hc, E; [reflexivity|].
      now rewrite firstn_all, firstn_all2. }
    destruct (IH (skipn c f) (remaining - Z.of_nat c)) as [Hcat Hall].
    { rewrite length_skipn. lia. }
    split.
    + cbn [List.concat]. rewrite Hcat, Hsame.
      replace (Z.to_nat remaining)
        with (c + Z.to_nat (remaining - Z.of_nat c))%nat by lia.
      symmetry. apply firstn_plus.
    + constructor; [fold c; lia | exact Hall].
Qed.

Lemma iterfile_spec (content : list byte) (start chunk_size : Z) :
  0 <= start ->
  exists body,
    iterfile content start chunk_size = Ok body
    /\ List.concat body
       = firstn (Z.to_nat chunk_size) (skipn (Z.to_nat start) content)
    /\ Forall (fun chunk => 0 < Z.of_nat (List.length chunk) <= 8192) body.
Proof.
  intros Hs. unfold iterfile. destruct (Z.ltb_spec start 0); [lia|].
  eexists. split; [reflexivity|]. apply iterfile_loop_spec. lia.
Qed.

Lemma byte_range_length (content : list byte) (first last : Z) :
  0 <= first <= last -> last < Z.of_nat (List.length content) ->
  Z.of_nat (List.length (byte_range content first last)) = last - first + 1.
Proof.
  intros H1 H2. unfold byte_range. rewrite length_firstn, length_skipn. lia.
Qed.

(** C1. For a file of [N] bytes on disk and bounds
    [0 <= first <= last < N], the request with the header
    [bytes=first-last] is answered with status 206, the header
    [Content-Range: bytes first-last/N], the header
    [Content-Length: last-first+1], and a body whose chunks, of at most
    8192 bytes each, make up exactly the bytes of the file from offset
    [first] to offset [last]; with the header [bytes=first-] the end of
    the range is [N-1]. *)
Theorem stream_video_range
        (fs : filesystem) (path : string) (content : list byte)
        (first last : Z) :
  fs path = Some content ->
  0 <= first <= last ->
  last < Z.of_nat (List.length content) ->
  let N := Z.of_nat (List.length content) in
  (exists body,
     stream_video fs path (Some ("bytes=" ++ str first ++ "-" ++ str last)%string)
     = Ok (StreamingResponse
             (Ok body) 206
             [ ("Content-Range",
                "bytes " ++ str first ++ "-" ++ str last ++ "/" ++ str N)%string;
               ("Accept-Ranges", "bytes");
               ("Content-Length", str (last - first + 1));
               ("Content-Type", "video/mp4") ])
     /\ List.concat body = byte_range content first last
     /\ Z.of_nat (List.length (List.concat body)) = last - first + 1
     /\ Forall (fun chunk => 0 < Z.of_nat (List.length chunk) <= 8192) body)
  /\ (exists body,
        stream_video fs path (Some ("bytes=" ++ str first ++ "-")%string)
        = Ok (StreamingResponse
                (Ok body) 206
                [ ("Content-Range",
                   "bytes " ++ str first ++ "-" ++ str (N - 1)
                   ++ "/" ++ str N)%string;
                  ("Accept-Ranges", "bytes");
                  ("Content-Length", str (N - 1 - first + 1));
                  ("Content-Type", "video/mp4") ])
        /\ List.concat body = byte_range content first (N - 1)
        /\ Forall (fun chunk => 0 < Z.of_nat (List.length chunk) <= 8192) body).
Proof.
  intros Hfs Hb Hlast N. unfold stream_video. rewrite Hfs. fold N. split.
  - change (nonempty ("bytes=" ++ str first ++ "-" ++ str last)) with true.
    cbn iota. rewrite (parse_range_closed N first last) by lia.
    cbn [rbind try_except].
    destruct (iterfile_spec content first (last - first + 1))
      as (body & Hrun & Hcat & Hall); [lia|].
    rewrite Hrun. exists body. split; [reflexivity|].
    fold (byte_range content first last) in Hcat.
    repeat split; trivial. rewrite Hcat. now apply byte_range_length.
  - change (nonempty ("bytes=" ++ str first ++ "-")) with true.
    cbn iota. rewrite (parse_range_open N first) by lia.
    cbn [rbind try_except].
    destruct (iterfile_spec content first (N - 1 - first + 1))
      as (body & Hrun & Hcat & Hall); [lia|].
    rewrite Hrun. exists body. split; [reflexivity|].
    fold (byte_range content first (N - 1)) in Hcat. now split.
Qed.

Lemma stream_video_range_witness :
  (exists body,
     stream_video sample_fs "media/video.mp4" (Some "bytes=100-199")
     = Ok (StreamingResponse
             (Ok body) 206
             [ ("Content-Range", "bytes 100-199/1000");
               ("Accept-Ranges", "bytes");
               ("Content-Length", "100");
               ("Content-Type", "video/mp4") ])
     /\ List.concat body = byte_range sample_file 100 199
     /\ Z.of_nat (List.length (List.concat body)) = 100
     /\ Forall (fun chunk => 0 < Z.of_nat (List.length chunk) <= 8192) body)
  /\ (exists body,
        stream_video sample_fs "media/video.mp4" (Some "bytes=100-")
        = Ok (StreamingResponse
                (Ok body) 206
                [ ("Content-Range", "bytes 100-999/1000");
                  ("Accept-Ranges", "bytes");
                  ("Content-Length", "900");
                  ("Content-Type", "video/mp4") ])
        /\ List.concat body = byte_range sample_file 100 999
        /\ Forall (fun chunk => 0 < Z.of_nat (List.length chunk) <= 8192) body).
Proof.
  apply (stream_video_range sample_fs "media/video.mp4" sample_file 100 199).
  - reflexivity.
  - lia.
  - vm_compute. reflexivity.
Defined.

(** The request for bytes 100 to 199 of the 1000-byte sample, run: one
    chunk of 100 bytes, the bytes 100, 101, ... 199 of the file. *)
Example stream_video_100_199 :
  stream_video sample_fs "media/video.mp4" (Some "bytes=100-199")
  = Ok (StreamingResponse
          (Ok [firstn 100 (skipn 100 sample_file)]) 206
          [ ("Content-Range", "bytes 100-199/1000");
            ("Accept-Ranges", "bytes");
            ("Content-Length", "100");
            ("Content-Type", "video/mp4") ]).
Proof. vm_compute. reflexivity. Qed.

(** Without a range header the whole file is served, with the same
    declaration of range support. *)
Example stream_video_whole_file :
  stream_video sample_fs "media/video.mp4" None
  = Ok (FileResponse "media/video.mp4" "video/mp4" [("Accept-Ranges", "bytes")]).
Proof. reflexivity. Qed.

(* ================================================================== *)
(** * Further properties of the code *)
(* ================================================================== *)

(* ------------------------------------------------------------------ *)
(** ** File names *)
(* ------------------------------------------------------------------ *)

Lemma remove_illegal_clean (s : string) : clean (remove_illegal s) = true.
Proof.
  induction s as [|c s IH]; cbn [remove_illegal clean]; [reflexivity|].
  destruct (illegal_char c) eqn:E; [exact IH|].
  cbn [clean]. now rewrite E, IH.
Qed.

Lemma remove_illegal_fixed (s : string) :
  clean s = true -> remove_illegal s = s.
Proof.
  induction s as [|c s IH]; cbn [remove_illegal clean]; [reflexivity|].
  intros H. apply andb_true_iff in H as [Hc Hs].
  apply negb_true_iff in Hc. rewrite Hc. now rewrite IH.
Qed.

Lemma substring_prefix_length (m : nat) (s : string) :
  (String.length (String.substring 0 m s) <= m)%nat.
Proof.
  revert s. induction m as [|m IH]; intros [|c s]; cbn; try lia.
  specialize (IH s). lia.
Qed.

Lemma substring_prefix_clean (m : nat) (s : string) :
  clean s = true -> clean (String.substring 0 m s) = true.
Proof.
  revert s. induction m as [|m IH]; intros [|c s]; cbn; trivial.
  intros H. apply andb_true_iff in H as [-> Hs]. now apply IH.
Qed.

Lemma substring_prefix_short (m : nat) (s : string) :
  (String.length s <= m)%nat -> String.substring 0 m s = s.
Proof.
  revert s. induction m as [|m IH]; intros [|c s]; cbn; trivial; try lia.
  intros H. rewrite IH; [reflexivity | lia].
Qed.

(** X1. [sanitize_filename] on a text returns a text of at most 200
    characters that holds none of the nine characters of the class. *)
Theorem sanitize_filename_bounded (name : string) :
  exists out,
    sanitize_filename (Some name) = Ok out
    /\ (String.length out <= 200)%nat
    /\ clean out = true.
Proof.
  eexists. split; [reflexivity|]. split.
  - apply substring_prefix_length.
  - apply substring_prefix_clean, remove_illegal_clean.
Qed.

(** X2. A name of at most 200 characters without any character of the
    class is returned as it is. *)
Theorem sanitize_filename_unchanged (name : string) :
  clean name = true ->
  (String.length name <= 200)%nat ->
  sanitize_filename (Some name) = Ok name.
Proof.
  intros Hclean Hlen. unfold sanitize_filename.
  rewrite (remove_illegal_fixed name Hclean).
  now rewrite substring_prefix_short.
Qed.

Lemma sanitize_filename_unchanged_witness :
  sanitize_filename (Some "My video - part 1") = Ok "My video - part 1".
Proof.
  apply sanitize_filename_unchanged.
  - reflexivity.
  - cbn. lia.
Defined.

(** X3. Sanitizing twice is sanitizing once. *)
Theorem sanitize_filename_idempotent (name out : string) :
  sanitize_filename (Some name) = Ok out ->
  sanitize_filename (Some out) = Ok out.
Proof.
  intros [= <-]. unfold sanitize_filename.
  rewrite remove_illegal_fixed
    by apply substring_prefix_clean, remove_illegal_clean.
  rewrite substring_prefix_short; [reflexivity|].
  apply substring_prefix_length.
Qed.

Lemma sanitize_filename_idempotent_witness :
  sanitize_filename (Some "a/b: c?") = Ok "ab c"
  /\ sanitize_filename (Some "ab c") = Ok "ab c".
Proof.
  split; [reflexivity|].
  apply (sanitize_filename_idempotent "a/b: c?"). reflexivity.
Defined.

(* ------------------------------------------------------------------ *)
(** ** What a save keeps of the catalog *)
(* ------------------------------------------------------------------ *)

Lemma fold_max_bound (ids : list Z) (x : Z) :
  In x ids -> x <= fold_right Z.max 0 ids.
Proof.
  induction ids as [|y ids IH]; cbn; [easy|].
  intros [->|H]; [lia|]. specialize (IH H). lia.
Qed.

Lemma NoDup_map_filter {A B : Type} (f : A -> B) (p : A -> bool) (l : list A) :
  NoDup (map f l) -> NoDup (map f (filter p l)).
Proof.
  induction l as [|a l IH]; cbn; [trivial|].
  intros H. inversion H as [|? ? Hnotin Hnd]; subst.
  destruct (p a); [|now apply IH].
  cbn. constructor; [|now apply IH].
  intros Hin. apply Hnotin. apply in_map_iff in Hin as (x & Hx & Hin).
  apply filter_In in Hin as [Hin _]. apply in_map_iff. now exists x.
Qed.

Lemma NoDup_snoc {A : Type} (l : list A) (x : A) :
  NoDup l -> ~ In x l -> NoDup (l ++ [x]).
Proof.
  intros Hl Hx. apply NoDup_app; [exact Hl | repeat constructor; easy |].
  intros a Ha [<-|[]]. exact (Hx Ha).
Qed.


(** The outcome of [save_to_database]: a refusal that writes nothing, or
    the rows described by [save_to_database_ok]. *)
Lemma save_to_database_cases (vd : video_data) (tgs : option (list string))
      (playlist_name : option string) (db : database) :
  (exists exc, save_to_database vd tgs playlist_name db = (Raise exc, db))
  \/ exists ext title rows seq',
       vd_video_id vd = Val ext /\ vd_title vd = Val title
       /\ save_to_database vd tgs playlist_name db
          = (Ok (next_rowid (videos_seq db) (map v_id (videos db))),
             mk_database
               (filter (fun r => negb (String.eqb (v_video_id r) ext)) (videos db)
                ++ [video_row_of (next_rowid (videos_seq db) (map v_id (videos db)))
                                 ext title vd])
               (next_rowid (videos_seq db) (map v_id (videos db)))
               (tags db ++ rows) seq'
               (playlists db) (playlists_seq db) (playlist_items db))
       /\ map (fun r => (t_video_id r, t_tag r)) rows
          = map (pair (next_rowid (videos_seq db) (map v_id (videos db))))
                (all_tags tgs).
Proof.
  destruct (bindable vd) eqn:Hbind;
    [|left; eexists; now apply save_to_database_overflow].
  destruct (vd_video_id vd) as [| |ext] eqn:Eid;
    try (left; eexists; apply save_to_database_not_null;
         [exact Hbind | rewrite Eid; now left]).
  destruct (vd_title vd) as [| |title] eqn:Et;
    try (left; eexists; apply save_to_database_not_null;
         [exact Hbind | rewrite Et; now right]).
  right.
  destruct (save_to_database_ok vd tgs playlist_name db ext title Eid Et Hbind)
    as (rows & seq' & Hrun & Hids & Htags & _).
  cbn zeta in Hrun, Hids. exists ext, title, rows, seq'.
  repeat split; trivial. now apply tag_rows_pairs.
Qed.

Lemma videos_unique_saved (db : database) (ext title : string)
      (vd : video_data) (tgs : list tag_row) (seq' : Z) :
  videos_unique db ->
  videos_unique
    (mk_database
       (filter (fun r => negb (String.eqb (v_video_id r) ext)) (videos db)
        ++ [video_row_of (next_rowid (videos_seq db) (map v_id (videos db)))
                         ext title vd])
       (next_rowid (videos_seq db) (map v_id (videos db)))
       tgs seq' (playlists db) (playlists_seq db) (playlist_items db)).
Proof.
  intros [Hids Hext]. unfold videos_unique. cbn [videos].
  rewrite !map_app. cbn [map video_row_of v_id v_video_id]. split.
  - apply NoDup_snoc; [now apply NoDup_map_filter|].
    intros Hin. apply in_map_iff in Hin as (r & Hr & Hin).
    apply filter_In in Hin as [Hin _].
    pose proof (next_rowid_fresh (videos_seq db) (map v_id (videos db)) (v_id r)
                  (in_map v_id _ _ Hin)). lia.
  - apply NoDup_snoc; [now apply NoDup_map_filter|].
    intros Hin. apply in_map_iff in Hin as (r & Hr & Hin).
    apply filter_In in Hin as [_ Hneq].
    rewrite Hr, String.eqb_refl in Hneq. discriminate.
Qed.



(** X5. [save_to_database] keeps the rowids and the external ids of
    [videos] free of duplicates, whatever record it is given and
    whether it returns or raises. *)
Theorem save_to_database_unique
        (vd : video_data) (tgs : option (list string)) (name : option string)
        (db : database) :
  videos_unique db ->
  videos_unique (snd (save_to_database vd tgs name db)).
Proof.
  intros Hu.
  destruct (save_to_database_cases vd tgs name db)
    as [[exc ->] | (ext & title & rows & seq' & _ & _ & -> & _)]; [exact Hu|].
  cbn [snd]. now apply videos_unique_saved.
Qed.

Lemma save_to_database_unique_witness :
  videos_unique
    (snd (save_to_database
            (mk_video_data (Val "abc") (Val "first") Absent Absent Absent
                           Absent Absent Absent Absent Absent Absent Absent
                           Absent)
            None None empty_database)).
Proof.
  apply save_to_database_unique. split; constructor.
Defined.

(* ------------------------------------------------------------------ *)
(** ** What an ingestion writes *)
(* ------------------------------------------------------------------ *)

Section IngestionOutcomes.

Variable extract_info : string -> bool -> string + info.
Variable extract_flat : string -> string + playlist_info.
Variable mkdir : string -> string -> result unit.
Variable prepare_filename : info -> string.
Variable now : string.

(** The outcomes of [download_video]: no success and an untouched
    catalog, or a success whose catalog is the one left by the save of
    the downloaded record. *)
Lemma download_video_cases (url : string) (custom_tags : option (list string))
      (playlist_name : option string) (db : database) :
  (snd (download_video extract_info mkdir prepare_filename now url custom_tags
                       playlist_name db) = db
   /\ forall r,
        fst (download_video extract_info mkdir prepare_filename now url custom_tags
                            playlist_name db) = Ok r ->
        is_success r = false)
  \/ exists probe i flag ext title rowid db',
       extract_info url false = inr probe
       /\ is_youtube_short probe = Ok flag
       /\ extract_info url true = inr i
       /\ info_id i = Val ext /\ info_title i = Val title
       /\ save_to_database (downloaded_data prepare_filename now url flag i)
                           custom_tags playlist_name db = (Ok rowid, db')
       /\ download_video extract_info mkdir prepare_filename now url custom_tags
                         playlist_name db
          = (Ok (VideoSuccess (Some ext) (Some title) flag rowid), db').
Proof.
  unfold download_video.
  destruct (extract_info url false) as [msg|probe] eqn:Eprobe.
  { left. cbn. split; [reflexivity|]. now intros r [= <-]. }
  destruct (is_youtube_short probe) as [flag|e] eqn:Eshort; cbn [rbind].
  2:{ left. cbn. split; [reflexivity | discriminate]. }
  destruct (sanitize_filename (get_default (info_uploader probe) "Unknown"));
    cbn [rbind].
  2:{ left. cbn. split; [reflexivity | discriminate]. }
  destruct (sanitize_filename (get_default (info_title probe) "Untitled"));
    cbn [rbind].
  2:{ left. cbn. split; [reflexivity | discriminate]. }
  destruct (mkdir _ _); cbn [rbind].
  2:{ left. cbn. split; [reflexivity | discriminate]. }
  destruct (extract_info url true) as [msg|i] eqn:Edl.
  { left. cbn. split; [reflexivity|]. now intros r [= <-]. }
  fold (downloaded_data prepare_filename now url flag i).
  destruct (save_to_database_cases
              (downloaded_data prepare_filename now url flag i)
              custom_tags playlist_name db)
    as [[exc Hfail] | (ext & title & rows & seq' & Hid & Ht & Hrun & _)].
  - left. rewrite Hfail. cbn. split; [reflexivity | discriminate].
  - right. rewrite Hrun. cbn [downloaded_data vd_video_id vd_title] in Hid, Ht.
    destruct (info_id i) as [| |ext'] eqn:Eid; try discriminate.
    destruct (info_title i) as [| |title'] eqn:Et; try discriminate.
    cbn in Hid, Ht. injection Hid as ->. injection Ht as ->.
    eexists probe, i, flag, ext, title, _, _. cbn [get].
    repeat split; trivial.
Qed.

(** A property of the catalog that saves and playlist items keep is
    kept by [download_video] and by the loop over the entries, whatever
    the extractor answers and whether they return or raise. *)
Section Stable.

Variable P : database -> Prop.
Hypothesis P_save :
  forall vd tgs name db, P db -> P (snd (save_to_database vd tgs name db)).
Hypothesis P_item :
  forall a b c db, P db -> P (snd (insert_playlist_item a b c db)).

Lemma download_video_stable (url : string) (custom_tags : option (list string))
      (playlist_name : option string) (db : database) :
  P db ->
  P (snd (download_video extract_info mkdir prepare_filename now url custom_tags
                         playlist_name db)).
Proof.
  intros HP.
  destruct (download_video_cases url custom_tags playlist_name db)
    as [[-> _] | (probe & i & flag & ext & title & rowid & db' & _ & _ & _ & _
                  & _ & Hsave & ->)]; [exact HP|].
  cbn [snd]. change db' with (snd (Ok rowid, db')). rewrite <- Hsave.
  now apply P_save.
Qed.

Lemma download_entries_stable (custom_tags : option (list string))
      (playlist_name : option string) (db_playlist_id : Z)
      (entries : list entry) :
  forall (idx : Z) (results : list video_result) (db : database),
    P db ->
    P (snd (download_entries extract_info mkdir prepare_filename now custom_tags
                             playlist_name db_playlist_id idx entries
                             results db)).
Proof.
  induction entries as [|e entries IH]; intros idx results db HP; [exact HP|].
  cbn [download_entries].
  pose proof (download_video_stable (entry_video_url e) custom_tags
                playlist_name db HP) as H1.
  destruct (download_video extract_info mkdir prepare_filename now
              (entry_video_url e) custom_tags playlist_name db)
    as [[r|exc] db1]; cbn [snd] in *; [|exact H1].
  destruct r as [msg|vid title flag db_id].
  - now apply IH.
  - pose proof (P_item db_playlist_id db_id idx db1 H1) as H2.
    destruct (insert_playlist_item db_playlist_id db_id idx db1)
      as [[u|exc] db2]; cbn [snd] in *; [|exact H2].
    now apply IH.
Qed.

Hypothesis P_playlist :
  forall pid name description created db,
    P db -> P (snd (insert_or_ignore_playlist pid name description created db)).

Lemma download_playlist_stable (playlist_url : string)
      (custom_tags : option (list string)) (db : database) :
  P db ->
  P (snd (download_playlist extract_info extract_flat mkdir prepare_filename now
                            playlist_url custom_tags db)).
Proof.
  intros HP. unfold download_playlist.
  destruct (extract_flat playlist_url) as [msg|listing]; [exact HP|].
  pose proof (P_playlist (get (playlist_ext_id listing))
                (get_default (playlist_title listing) "Unknown Playlist")
                (get_default (playlist_description listing) "") now db HP) as H1.
  destruct (insert_or_ignore_playlist _ _ _ _ db) as [[u|exc] db1];
    cbn [snd] in *; [|exact H1].
  assert (H2 : snd (select_playlist_id (get (playlist_ext_id listing)) db1) = db1).
  { unfold select_playlist_id. destruct (execute sql_select_playlist);
      [|reflexivity]. now destruct (find _ _). }
  destruct (select_playlist_id (get (playlist_ext_id listing)) db1)
    as [[plid|exc] db2]; cbn [snd] in *; subst db2; [|exact H1].
  destruct (get_default (playlist_entries listing) []) as [entries|];
    [|exact H1].
  pose proof (download_entries_stable custom_tags
                (get_default (playlist_title listing) "Unknown Playlist")
                plid entries 0 [] db1 H1) as H3.
  destruct (download_entries _ _ _ _ _ _ _ _ _ _ db1) as [[rs|exc] db3];
    exact H3.
Qed.

End Stable.

End IngestionOutcomes.

Lemma insert_playlist_item_videos (a b c : Z) (db : database) :
  videos (snd (insert_playlist_item a b c db)) = videos db
  /\ playlists (snd (insert_playlist_item a b c db)) = playlists db
  /\ playlists_seq (snd (insert_playlist_item a b c db)) = playlists_seq db.
Proof. repeat split. Qed.

Lemma insert_or_ignore_playlist_videos
      (pid name description : option string) (created : string) (db : database) :
  videos (snd (insert_or_ignore_playlist pid name description created db))
  = videos db.
Proof.
  unfold insert_or_ignore_playlist.
  change (execute sql_insert_playlist) with (Ok tt). cbn iota.
  destruct name; [|reflexivity]. now destruct (existsb _ _).
Qed.

Lemma save_to_database_playlists (vd : video_data) (tgs : option (list string))
      (name : option string) (db : database) :
  playlists (snd (save_to_database vd tgs name db)) = playlists db
  /\ playlists_seq (snd (save_to_database vd tgs name db)) = playlists_seq db.
Proof.
  destruct (save_to_database_cases vd tgs name db)
    as [[exc ->] | (ext & title & rows & seq' & _ & _ & -> & _)]; now split.
Qed.

(** X6. A whole playlist ingestion keeps the rowids and the external ids
    of [videos] free of duplicates, whatever the extractor answers and
    whether [download_playlist] returns or raises. *)
Theorem download_playlist_unique
        (extract_info : string -> bool -> string + info)
        (extract_flat : string -> string + playlist_info)
        (mkdir : string -> string -> result unit)
        (prepare_filename : info -> string) (now : string)
        (playlist_url : string) (custom_tags : option (list string))
        (db : database) :
  videos_unique db ->
  videos_unique
    (snd (download_playlist extract_info extract_flat mkdir prepare_filename now
                            playlist_url custom_tags db)).
Proof.
  apply download_playlist_stable.
  - intros vd tgs name d Hd.
    destruct (save_to_database_cases vd tgs name d)
      as [[exc ->] | (ext & title & rows & seq' & _ & _ & -> & _)]; [exact Hd|].
    cbn [snd]. now apply videos_unique_saved.
  - intros a b c d Hd. exact Hd.
  - intros pid name description created d Hd. unfold videos_unique.
    now rewrite insert_or_ignore_playlist_videos.
Qed.

Lemma download_playlist_unique_witness :
  videos_unique
    (snd (download_playlist untitled_extract sample_flat sample_mkdir sample_filename
                            "2024-01-01T00:00:00"
                            "https://www.youtube.com/playlist?list=PL1"
                            None empty_database)).
Proof.
  apply download_playlist_unique. split; constructor.
Defined.

(** X7. [download_video] writes to the catalog only when it returns a
    success: after an error result, and after an exception, the catalog
    is the one it was given (no partial row, no tag). *)
Theorem download_video_no_partial_write
        (extract_info : string -> bool -> string + info)
        (mkdir : string -> string -> result unit)
        (prepare_filename : info -> string) (now : string)
        (url : string) (custom_tags : option (list string))
        (playlist_name : option string) (db : database) :
  (forall r,
     fst (download_video extract_info mkdir prepare_filename now url custom_tags
                         playlist_name db) = Ok r ->
     is_success r = false) ->
  snd (download_video extract_info mkdir prepare_filename now url custom_tags
                      playlist_name db) = db.
Proof.
  intros Hfail.
  destruct (download_video_cases extract_info mkdir prepare_filename now url
              custom_tags playlist_name db)
    as [[H _] | (probe & i & flag & ext & title & rowid & db' & _ & _ & _ & _
                 & _ & _ & Hrun)]; [exact H|].
  rewrite Hrun in Hfail. specialize (Hfail _ eq_refl). discriminate.
Qed.

Lemma download_video_no_partial_write_witness :
  snd (download_video untitled_extract sample_mkdir sample_filename "2024-01-01T00:00:00"
                      "https://www.youtube.com/watch?v=a" (Some ["music"])
                      None empty_database)
  = empty_database.
Proof.
  apply download_video_no_partial_write. cbn. discriminate.
Defined.

(** X8. Every success of [download_video] stands for a stored row: the
    catalog holds a row with the returned rowid and external id, the
    URL asked for, the file name of the extractor, the flag of the
    classifier and the status ['completed']; [get_all_videos] without
    filter lists it; and the tag rows added are the default tag and the
    caller's tags, attached to that rowid. *)
Theorem download_video_success_stored
        (extract_info : string -> bool -> string + info)
        (mkdir : string -> string -> result unit)
        (prepare_filename : info -> string) (now : string)
        (url : string) (custom_tags : option (list string))
        (playlist_name : option string) (db db' : database)
        (vid title : option string) (flag : value) (db_id : Z) :
  download_video extract_info mkdir prepare_filename now url custom_tags
                 playlist_name db
  = (Ok (VideoSuccess vid title flag db_id), db') ->
  exists row i new_tags,
    extract_info url true = inr i
    /\ In row (videos db')
    /\ v_id row = db_id
    /\ Some (v_video_id row) = vid
    /\ Some (v_title row) = title
    /\ v_original_url row = Some url
    /\ v_file_path row = Some (prepare_filename i)
    /\ v_is_short row = adapt_flag (Some flag)
    /\ v_status row = Some "completed"
    /\ (exists rows, get_all_videos None db' = Ok rows /\ In row rows)
    /\ tags db' = tags db ++ new_tags
    /\ map (fun r => (t_video_id r, t_tag r)) new_tags
       = (db_id, "YouTube")
         :: map (pair db_id)
                (match custom_tags with Some ts => ts | None => [] end).
Proof.
  intros Hrun.
  destruct (download_video_cases extract_info mkdir prepare_filename now url
              custom_tags playlist_name db)
    as [[_ H] | (probe & i & flag' & ext & title' & rowid & db1 & _ & _ & Hdl
                 & Hid & Ht & Hsave & Hrun')].
  { rewrite Hrun in H. specialize (H _ eq_refl). discriminate. }
  rewrite Hrun in Hrun'. injection Hrun' as -> -> -> -> ->.
  destruct (save_to_database_cases
              (downloaded_data prepare_filename now url flag' i)
              custom_tags playlist_name db)
    as [[exc Hfail]
       | (ext' & title'' & rows & seq' & Hid' & Ht' & Hsave' & Hpairs)].
  { rewrite Hsave in Hfail. discriminate. }
  cbn [downloaded_data vd_video_id vd_title] in Hid', Ht'.
  rewrite Hid in Hid'. rewrite Ht in Ht'. cbn in Hid', Ht'.
  injection Hid' as <-. injection Ht' as <-.
  rewrite Hsave in Hsave'. injection Hsave' as -> ->.
  set (rowid := next_rowid (videos_seq db) (map v_id (videos db))) in *.
  set (row := video_row_of rowid ext title'
                (downloaded_data prepare_filename now url flag' i)).
  assert (Hin : In row
                  (filter (fun r => negb (v_video_id r =? ext)%string) (videos db)
                   ++ [row])).
  { apply in_or_app. right. now left. }
  exists row, i, rows. cbn [videos tags].
  repeat split; trivial.
  eexists. split; [reflexivity|]. apply filter_In. split; [exact Hin|].
  reflexivity.
Qed.

Lemma download_video_success_stored_witness :
  exists row i new_tags,
    sample_extract "https://www.youtube.com/watch?v=a" true = inr i
    /\ In row
          (videos
             (snd (download_video sample_extract sample_mkdir sample_filename
                     "2024-01-01T00:00:00" "https://www.youtube.com/watch?v=a"
                     (Some ["music"]) None empty_database)))
    /\ v_id row = 1
    /\ Some (v_video_id row) = Some "a"
    /\ Some (v_title row) = Some "Title a"
    /\ v_original_url row = Some "https://www.youtube.com/watch?v=a"
    /\ v_file_path row = Some (sample_filename i)
    /\ v_is_short row = adapt_flag (Some (VBool true))
    /\ v_status row = Some "completed"
    /\ (exists rows,
          get_all_videos None
            (snd (download_video sample_extract sample_mkdir sample_filename
                    "2024-01-01T00:00:00" "https://www.youtube.com/watch?v=a"
                    (Some ["music"]) None empty_database)) = Ok rows
          /\ In row rows)
    /\ tags (snd (download_video sample_extract sample_mkdir sample_filename
                    "2024-01-01T00:00:00" "https://www.youtube.com/watch?v=a"
                    (Some ["music"]) None empty_database))
       = tags empty_database ++ new_tags
    /\ map (fun r => (t_video_id r, t_tag r)) new_tags
       = (1, "YouTube") :: map (pair 1) ["music"].
Proof.
  apply (download_video_success_stored
           sample_extract sample_mkdir sample_filename "2024-01-01T00:00:00"
           "https://www.youtube.com/watch?v=a" (Some ["music"]) None
           empty_database _ (Some "a") (Some "Title a") (VBool true) 1).
  reflexivity.
Defined.

Lemma is_youtube_short_unknown_duration (i : info) (url : string) :
  info_duration i = Null ->
  get_default (info_web_page_url i) "" = Some url ->
  contains "/shorts/" url = false ->
  is_youtube_short i = Ok VNone.
Proof.
  intros Hd Hurl Hno. unfold is_youtube_short.
  rewrite Hd, Hurl. unfold shorts_marker. rewrite Hno.
  destruct (info_width i) as [| |w], (info_height i) as [| |h];
    cbn -[Z.eqb Z.gtb];
    repeat match goal with
           | |- context [?x =? 0] =>
               is_var x; destruct (Z.eqb_spec x 0); subst; cbn -[Z.eqb Z.gtb]
           end; reflexivity.
Qed.

(** X9. A video whose probed metadata has [None] as duration (and no
    URL marker) is classified [None]; when its metadata can be
    processed (the probed record can be prepared and its output
    directory made, the downloaded record carries id and title and
    integers within 64 bits) it is stored with [NULL] in [is_short],
    and [GET /api/videos] returns it for neither value of its filter,
    although the unfiltered [get_all_videos] lists it. *)
Theorem unknown_duration_not_listed
        (extract_info : string -> bool -> string + info)
        (mkdir : string -> string -> result unit)
        (prepare_filename : info -> string) (now : string)
        (url : string) (custom_tags : option (list string))
        (playlist_name : option string) (db : database)
        (probe i : info) (page ext title : string) :
  extract_info url false = inr probe ->
  info_duration probe = Null ->
  get_default (info_web_page_url probe) "" = Some page ->
  contains "/shorts/" page = false ->
  probe_well_formed mkdir probe = true ->
  extract_info url true = inr i ->
  info_id i = Val ext -> info_title i = Val title ->
  storable i = true ->
  exists db_id db',
    download_video extract_info mkdir prepare_filename now url custom_tags
                   playlist_name db
    = (Ok (VideoSuccess (Some ext) (Some title) VNone db_id), db')
    /\ (forall flag rows,
          get_videos flag db' = Ok rows ->
          forall r, In r rows -> v_video_id r <> ext)
    /\ (exists rows r,
          get_all_videos None db' = Ok rows
          /\ In r rows /\ v_video_id r = ext /\ v_id r = db_id).
Proof.
  intros Hprobe Hdur Hpage Hno Hwf Hdl Hid Ht Hst.
  destruct (download_video_prepared mkdir probe Hwf) as (v & Hv & Hprep).
  pose proof (is_youtube_short_unknown_duration probe page Hdur Hpage Hno)
    as Hnone.
  rewrite Hv in Hnone. injection Hnone as ->.
  unfold download_video. rewrite Hprobe, Hprep, Hdl.
  fold (downloaded_data prepare_filename now url VNone i).
  destruct (save_to_database_ok
              (downloaded_data prepare_filename now url VNone i)
              custom_tags playlist_name db ext title)
    as (rows & seq' & Hrun & _).
  { cbn. now rewrite Hid. }
  { cbn. now rewrite Ht. }
  { exact (downloaded_data_bindable prepare_filename now url probe i VNone
             Hv Hst). }
  cbn zeta in Hrun. rewrite Hrun, Hid, Ht. cbn [get].
  eexists _, _. split; [reflexivity|]. cbn [videos]. split.
  - intros flag listed Hlisted r Hr.
    unfold get_videos, get_all_videos in Hlisted. cbn in Hlisted.
    injection Hlisted as <-.
    apply filter_In in Hr as [Hin Hkeep].
    apply in_app_or in Hin as [Hin|[<-|[]]].
    + apply filter_In in Hin as [_ Hneq].
      apply negb_true_iff in Hneq. now apply String.eqb_neq in Hneq.
    + apply andb_true_iff in Hkeep as [_ Hflag]. discriminate.
  - eexists _, (video_row_of _ ext title _). split; [reflexivity|].
    split; [|split; reflexivity].
    apply filter_In.
    split; [apply in_or_app; right; left; reflexivity | reflexivity].
Qed.

Lemma unknown_duration_not_listed_witness :
  let probe := mk_info (Val "live1") (Val "Live") Absent Absent Null Absent
                       Absent Absent (Val 1920) (Val 1080) Absent in
  let extract := fun (_ : string) (_ : bool) => @inr string info probe in
  exists db_id db',
    download_video extract sample_mkdir sample_filename "2024-01-01T00:00:00"
                   "https://www.youtube.com/watch?v=live1" None None
                   empty_database
    = (Ok (VideoSuccess (Some "live1") (Some "Live") VNone db_id), db')
    /\ (forall flag rows,
          get_videos flag db' = Ok rows ->
          forall r, In r rows -> v_video_id r <> "live1")
    /\ (exists rows r,
          get_all_videos None db' = Ok rows
          /\ In r rows /\ v_video_id r = "live1" /\ v_id r = db_id).
Proof.
  intros probe extract.
  apply (unknown_duration_not_listed extract sample_mkdir sample_filename _ _ None None
           empty_database probe probe "" "live1" "Live");
    reflexivity.
Defined.

(* ------------------------------------------------------------------ *)
(** ** The playlist table *)
(* ------------------------------------------------------------------ *)

Lemma download_entries_playlists
      (extract_info : string -> bool -> string + info)
      (mkdir : string -> string -> result unit)
      (prepare_filename : info -> string) (now : string)
      (custom_tags : option (list string)) (playlist_name : option string)
      (db_playlist_id idx : Z) (entries : list entry)
      (results : list video_result) (db : database) :
  playlists (snd (download_entries extract_info mkdir prepare_filename now
                    custom_tags playlist_name db_playlist_id idx entries
                    results db))
  = playlists db.
Proof.
  apply (download_entries_stable extract_info mkdir prepare_filename now
           (fun d => playlists d = playlists db)).
  - intros vd tgs name d Hd.
    now rewrite (proj1 (save_to_database_playlists vd tgs name d)).
  - intros a b c d Hd. exact Hd.
  - reflexivity.
Qed.

(** X10. Insert-if-absent: when the catalog already holds the external
    id of the listing, [download_playlist] leaves the playlist table as
    it is (the stored name and description are not overwritten),
    whatever the listing says and whether the call returns or raises. *)
Theorem download_playlist_known_id
        (extract_info : string -> bool -> string + info)
        (extract_flat : string -> string + playlist_info)
        (mkdir : string -> string -> result unit)
        (prepare_filename : info -> string) (now : string)
        (playlist_url : string) (custom_tags : option (list string))
        (db : database) (listing : playlist_info) (pid : string) :
  extract_flat playlist_url = inr listing ->
  playlist_ext_id listing = Val pid ->
  existsb (same_playlist (Some pid)) (playlists db) = true ->
  playlists (snd (download_playlist extract_info extract_flat mkdir prepare_filename
                                    now playlist_url custom_tags db))
  = playlists db.
Proof.
  intros Hflat Hpid Hknown. unfold download_playlist.
  rewrite Hflat, Hpid. cbn [get]. unfold insert_or_ignore_playlist.
  change (execute sql_insert_playlist) with (Ok tt). cbn iota.
  cbn zeta. rewrite Hknown.
  set (skipped := mk_database _ _ _ _ _ _ _).
  assert (Hins : forall name : option string,
             match name with
             | Some _ => (Ok tt, skipped)
             | None => (@Ok unit tt, skipped)
             end = (Ok tt, skipped)) by (now intros []).
  rewrite Hins. unfold select_playlist_id.
  change (execute sql_select_playlist) with (Ok tt). cbn iota.
  change (playlists skipped) with (playlists db).
  destruct (find_some_of_existsb _ _ Hknown) as [row ->].
  destruct (get_default (playlist_entries listing) []) as [entries|];
    [|reflexivity].
  pose proof (download_entries_playlists extract_info mkdir prepare_filename now
                custom_tags
                (get_default (playlist_title listing) "Unknown Playlist")
                (p_id row) 0 entries [] skipped) as H.
  change (playlists skipped) with (playlists db) in H.
  destruct (download_entries _ _ _ _ _ _ _ _ _ _ skipped) as [[rs|exc] db3];
    exact H.
Qed.

Lemma download_playlist_known_id_witness :
  let db := snd (download_playlist sample_extract sample_flat sample_mkdir sample_filename
                   "2024-01-01T00:00:00"
                   "https://www.youtube.com/playlist?list=PL1"
                   None empty_database) in
  let renamed := fun (_ : string) =>
    @inr string playlist_info
         (mk_playlist_info (Val "Renamed") (Val "PL1") (Val "new text")
                           (Val [])) in
  playlists (snd (download_playlist sample_extract renamed sample_mkdir sample_filename
                    "2024-02-02T00:00:00"
                    "https://www.youtube.com/playlist?list=PL1" None db))
  = playlists db.
Proof.
  intros db renamed.
  apply (download_playlist_known_id sample_extract renamed sample_mkdir sample_filename _ _
           None db
           (mk_playlist_info (Val "Renamed") (Val "PL1") (Val "new text")
                             (Val [])) "PL1");
    reflexivity.
Defined.

(** X11. A listing whose external id is new and whose name is not
    [None] adds exactly one row to the playlist table, under a fresh
    rowid, with the name of the listing (['Unknown Playlist'] when the
    listing has no title key) and the description (empty when absent);
    this holds whatever happens to the entries afterwards. *)
Theorem download_playlist_new_id
        (extract_info : string -> bool -> string + info)
        (extract_flat : string -> string + playlist_info)
        (mkdir : string -> string -> result unit)
        (prepare_filename : info -> string) (now : string)
        (playlist_url : string) (custom_tags : option (list string))
        (db : database) (listing : playlist_info) (pid name : string) :
  extract_flat playlist_url = inr listing ->
  playlist_ext_id listing = Val pid ->
  get_default (playlist_title listing) "Unknown Playlist" = Some name ->
  existsb (same_playlist (Some pid)) (playlists db) = false ->
  playlists (snd (download_playlist extract_info extract_flat mkdir prepare_filename
                                    now playlist_url custom_tags db))
  = playlists db
    ++ [mk_playlist_row
          (next_rowid (playlists_seq db) (map p_id (playlists db)))
          (Some pid) name
          (get_default (playlist_description listing) "") (Some now)]
  /\ forall r, In r (playlists db) ->
               p_id r < next_rowid (playlists_seq db) (map p_id (playlists db)).
Proof.
  intros Hflat Hpid Hname Hnew. split.
  2:{ intros r Hr. apply next_rowid_fresh. now apply in_map. }
  unfold download_playlist.
  rewrite Hflat, Hpid, Hname. cbn [get]. unfold insert_or_ignore_playlist.
  change (execute sql_insert_playlist) with (Ok tt). cbn iota.
  rewrite Hnew. unfold select_playlist_id.
  change (execute sql_select_playlist) with (Ok tt). cbn iota.
  cbn [playlists].
  rewrite (find_appended _ _ _ Hnew) by (cbn; apply String.eqb_refl).
  destruct (get_default (playlist_entries listing) []) as [entries|];
    [|reflexivity].
  match goal with
  | |- context [download_entries _ _ _ _ ?tg ?pn ?plid ?idx ?es ?rs ?d] =>
      pose proof (download_entries_playlists extract_info mkdir prepare_filename now
                    tg pn plid idx es rs d) as H;
      destruct (download_entries extract_info mkdir prepare_filename now
                                 tg pn plid idx es rs d) as [[res|exc] db3]
  end; exact H.
Qed.

Lemma download_playlist_new_id_witness :
  playlists (snd (download_playlist sample_extract sample_flat sample_mkdir sample_filename
                    "2024-01-01T00:00:00"
                    "https://www.youtube.com/playlist?list=PL1"
                    None empty_database))
  = playlists empty_database
    ++ [mk_playlist_row
          (next_rowid (playlists_seq empty_database)
                      (map p_id (playlists empty_database)))
          (Some "PL1") "Sample"
          (get_default (playlist_description sample_listing) "")
          (Some "2024-01-01T00:00:00")]
  /\ forall r, In r (playlists empty_database) ->
               p_id r < next_rowid (playlists_seq empty_database)
                                   (map p_id (playlists empty_database)).
Proof.
  apply (download_playlist_new_id sample_extract sample_flat sample_mkdir sample_filename
           _ _ None empty_database sample_listing "PL1" "Sample");
    reflexivity.
Defined.

(** X12. A listing without external id cannot be read back: the row is
    inserted (a [NULL] id conflicts with nothing) and committed, the
    SELECT finds no row, and [download_playlist] raises [TypeError]
    before any entry is processed; every such call leaves one more row
    with a [NULL] external id. *)
Theorem download_playlist_without_id
        (extract_info : string -> bool -> string + info)
        (extract_flat : string -> string + playlist_info)
        (mkdir : string -> string -> result unit)
        (prepare_filename : info -> string) (now : string)
        (playlist_url : string) (custom_tags : option (list string))
        (db : database) (listing : playlist_info) (name : string) :
  extract_flat playlist_url = inr listing ->
  get (playlist_ext_id listing) = None ->
  get_default (playlist_title listing) "Unknown Playlist" = Some name ->
  download_playlist extract_info extract_flat mkdir prepare_filename now
                    playlist_url custom_tags db
  = (Raise TypeError,
     mk_database (videos db) (videos_seq db) (tags db) (tags_seq db)
                 (playlists db
                  ++ [mk_playlist_row
                        (next_rowid (playlists_seq db) (map p_id (playlists db)))
                        None name
                        (get_default (playlist_description listing) "")
                        (Some now)])
                 (next_rowid (playlists_seq db) (map p_id (playlists db)))
                 (playlist_items db)).
Proof.
  intros Hflat Hpid Hname. unfold download_playlist.
  rewrite Hflat, Hpid, Hname. unfold insert_or_ignore_playlist.
  change (execute sql_insert_playlist) with (Ok tt). cbn iota.
  assert (Hno : forall l, existsb (same_playlist None) l = false).
  { induction l as [|r l IH]; cbn; [reflexivity|]. rewrite IH.
    unfold same_playlist. now destruct (p_playlist_id r). }
  rewrite Hno. unfold select_playlist_id.
  change (execute sql_select_playlist) with (Ok tt). cbn iota.
  cbn [playlists].
  assert (Hfind : forall l, find (same_playlist None) l = None).
  { induction l as [|r l IH]; cbn; [reflexivity|]. rewrite IH.
    unfold same_playlist. now destruct (p_playlist_id r). }
  now rewrite Hfind.
Qed.

Lemma download_playlist_without_id_witness :
  let nameless := fun (_ : string) =>
    @inr string playlist_info
         (mk_playlist_info (Val "Mix") Absent Absent (Val [])) in
  download_playlist sample_extract nameless sample_mkdir sample_filename
                    "2024-01-01T00:00:00" "https://www.youtube.com/playlist"
                    None empty_database
  = (Raise TypeError,
     mk_database [] 0 [] 0
                 [mk_playlist_row 1 None "Mix" (Some "") (Some "2024-01-01T00:00:00")]
                 1 []).
Proof.
  intro nameless.
  apply (download_playlist_without_id sample_extract nameless sample_mkdir sample_filename
           "2024-01-01T00:00:00" "https://www.youtube.com/playlist" None
           empty_database
           (mk_playlist_info (Val "Mix") Absent Absent (Val [])) "Mix");
    reflexivity.
Defined.

(* ------------------------------------------------------------------ *)
(** ** Streaming: every header that is parsed *)
(* ------------------------------------------------------------------ *)










Lemma stream_video_parsed (fs : filesystem) (path : string)
      (content : list byte) (h : string) (start end_ : Z) :
  fs path = Some content ->
  nonempty h = true ->
  parse_range h (Z.of_nat (List.length content)) = Ok (start, end_) ->
  stream_video fs path (Some h)
  = Ok (StreamingResponse
          (iterfile content start (end_ - start + 1)) 206
          [ ("Content-Range",
             "bytes " ++ str start ++ "-" ++ str end_ ++ "/"
             ++ str (Z.of_nat (List.length content)))%string;
            ("Accept-Ranges", "bytes");
            ("Content-Length", str (end_ - start + 1));
            ("Content-Type", "video/mp4") ]).
Proof.
  intros Hfs Hne Hparse. unfold stream_video.
  rewrite Hfs, Hne. cbn iota. rewrite Hparse. reflexivity.
Qed.



(** X14. A range that runs past the end of the file: for
    [bytes=first-last] with [first <= N <= last < 2^63], the body is the
    rest of the file from [first], [N - first] bytes, while the headers
    announce [last - first + 1] bytes and the range [first-last]. *)
Theorem stream_video_past_end
        (fs : filesystem) (path : string) (content : list byte)
        (first last : Z) :
  fs path = Some content ->
  0 <= first <= Z.of_nat (List.length content) ->
  Z.of_nat (List.length content) <= last ->
  last < 2 ^ 63 ->
  exists body,
    stream_video fs path (Some ("bytes=" ++ str first ++ "-" ++ str last)%string)
    = Ok (StreamingResponse
            (Ok body) 206
            [ ("Content-Range",
               "bytes " ++ str first ++ "-" ++ str last ++ "/"
               ++ str (Z.of_nat (List.length content)))%string;
              ("Accept-Ranges", "bytes");
              ("Content-Length", str (last - first + 1));
              ("Content-Type", "video/mp4") ])
    /\ List.concat body = skipn (Z.to_nat first) content
    /\ Z.of_nat (List.length (List.concat body))
       = Z.of_nat (List.length content) - first
    /\ Z.of_nat (List.length (List.concat body)) < last - first + 1.
Proof.
  intros Hfs Hfirst Hlast _.
  destruct (iterfile_spec content first (last - first + 1))
    as (body & Hrun & Hcat & _); [lia|].
  exists body.
  rewrite (stream_video_parsed
             fs path content ("bytes=" ++ str first ++ "-" ++ str last)
             first last Hfs eq_refl)
    by (apply parse_range_closed; lia).
  rewrite Hrun. split; [reflexivity|].
  assert (Hall : List.concat body = skipn (Z.to_nat first) content).
  { rewrite Hcat. apply firstn_all2. rewrite length_skipn. lia. }
  rewrite Hall, length_skipn. repeat split; lia.
Qed.

Lemma stream_video_past_end_witness :
  exists body,
    stream_video sample_fs "media/video.mp4" (Some "bytes=990-1999")
    = Ok (StreamingResponse
            (Ok body) 206
            [ ("Content-Range", "bytes 990-1999/1000");
              ("Accept-Ranges", "bytes");
              ("Content-Length", "1010");
              ("Content-Type", "video/mp4") ])
    /\ List.concat body = skipn (Z.to_nat 990) sample_file
    /\ Z.of_nat (List.length (List.concat body))
       = Z.of_nat (List.length sample_file) - 990
    /\ Z.of_nat (List.length (List.concat body)) < 1999 - 990 + 1.
Proof.
  apply (stream_video_past_end sample_fs "media/video.mp4" sample_file 990 1999).
  - reflexivity.
  - split; [lia | vm_compute; discriminate].
  - vm_compute. discriminate.
  - reflexivity.
Defined.

(** X15. A range whose end is below its start is not refused: for
    [bytes=first-last] with [0 <= last < first], [first] in the file or
    at its end and below [2^63], the answer is a 206 with an empty
    body, and the [Content-Length] announced is [last - first + 1],
    which is zero or negative. *)
Theorem stream_video_reversed
        (fs : filesystem) (path : string) (content : list byte)
        (first last : Z) :
  fs path = Some content ->
  0 <= last < first ->
  first <= Z.of_nat (List.length content) ->
  first < 2 ^ 63 ->
  stream_video fs path (Some ("bytes=" ++ str first ++ "-" ++ str last)%string)
  = Ok (StreamingResponse
          (Ok []) 206
          [ ("Content-Range",
             "bytes " ++ str first ++ "-" ++ str last ++ "/"
             ++ str (Z.of_nat (List.length content)))%string;
            ("Accept-Ranges", "bytes");
            ("Content-Length", str (last - first + 1));
            ("Content-Type", "video/mp4") ])
  /\ last - first + 1 <= 0.
Proof.
  intros Hfs Hrev _ _. split; [|lia].
  rewrite (stream_video_parsed
             fs path content ("bytes=" ++ str first ++ "-" ++ str last)
             first last Hfs eq_refl)
    by (apply parse_range_closed; lia).
  unfold iterfile. destruct (Z.ltb_spec first 0); [lia|].
  cbn [iterfile_loop]. rewrite Z.gtb_ltb.
  destruct (Z.ltb_spec 0 (last - first + 1)); [lia | reflexivity].
Qed.

Lemma stream_video_reversed_witness :
  stream_video sample_fs "media/video.mp4" (Some "bytes=5-2")
  = Ok (StreamingResponse
          (Ok []) 206
          [ ("Content-Range", "bytes 5-2/1000");
            ("Accept-Ranges", "bytes");
            ("Content-Length", "-2");
            ("Content-Type", "video/mp4") ])
  /\ 2 - 5 + 1 <= 0.
Proof.
  apply (stream_video_reversed sample_fs "media/video.mp4" sample_file 5 2).
  - reflexivity.
  - lia.
  - vm_compute. discriminate.
  - reflexivity.
Defined.

(** X16. [stream_video] never answers 404: a path with no file behind it
    gets a 500, because the 404 raised for it is caught by the handler
    of the same function. *)
Theorem stream_video_never_404
        (fs : filesystem) (path : string) (range_header : option string) :
  http_status (stream_video fs path range_header) <> 404
  /\ (fs path = None ->
      stream_video fs path range_header = Raise (HTTPException 500)).
Proof.
  split.
  - destruct (stream_video_status fs path range_header) as [H|[H|H]];
      rewrite H; discriminate.
  - apply stream_video_missing.
Qed.

(** X17. Through the catalog: when the row of the id has a path and the
    file is on disk, [stream_by_id] without range header answers with
    the whole file of that path and the declaration of range support;
    with [bytes=first-last] inside the file it answers as [stream_video]
    does, with a 206 and exactly the bytes asked for. *)
Theorem stream_by_id_serves
        (db : database) (fs : filesystem) (video_id : Z) (row : video_row)
        (video_path : string) (content : list byte) (first last : Z) :
  find (fun r => v_id r =? video_id) (videos db) = Some row ->
  v_file_path row = Some video_path ->
  nonempty video_path = true ->
  fs video_path = Some content ->
  0 <= first <= last ->
  last < Z.of_nat (List.length content) ->
  stream_by_id db fs video_id None
  = Ok (FileResponse video_path "video/mp4" [("Accept-Ranges", "bytes")])
  /\ http_status (stream_by_id db fs video_id None) = 200
  /\ exists body,
       stream_by_id db fs video_id
                    (Some ("bytes=" ++ str first ++ "-" ++ str last)%string)
       = Ok (StreamingResponse
               (Ok body) 206
               [ ("Content-Range",
                  "bytes " ++ str first ++ "-" ++ str last ++ "/"
                  ++ str (Z.of_nat (List.length content)))%string;
                 ("Accept-Ranges", "bytes");
                 ("Content-Length", str (last - first + 1));
                 ("Content-Type", "video/mp4") ])
       /\ List.concat body = byte_range content first last.
Proof.
  intros Hrow Hpath Hne Hfs Hb Hlast.
  rewrite !(stream_by_id_found db fs video_id _ row video_path content)
    by assumption.
  assert (Hwhole : stream_video fs video_path None
                   = Ok (FileResponse video_path "video/mp4"
                                      [("Accept-Ranges", "bytes")])).
  { unfold stream_video. now rewrite Hfs. }
  rewrite Hwhole. repeat split.
  destruct (iterfile_spec content first (last - first + 1))
    as (body & Hrun & Hcat & _); [lia|].
  exists body.
  rewrite (stream_video_parsed
             fs video_path content ("bytes=" ++ str first ++ "-" ++ str last)
             first last Hfs eq_refl)
    by (apply parse_range_closed; lia).
  rewrite Hrun. split; [reflexivity | exact Hcat].
Qed.

Lemma stream_by_id_serves_witness :
  let db := snd (download_video sample_extract sample_mkdir sample_filename
                   "2024-01-01T00:00:00" "https://www.youtube.com/watch?v=a"
                   None None empty_database) in
  stream_by_id db sample_fs 1 None
  = Ok (FileResponse "media/video.mp4" "video/mp4" [("Accept-Ranges", "bytes")])
  /\ http_status (stream_by_id db sample_fs 1 None) = 200
  /\ exists body,
       stream_by_id db sample_fs 1 (Some "bytes=100-199")
       = Ok (StreamingResponse
               (Ok body) 206
               [ ("Content-Range", "bytes 100-199/1000");
                 ("Accept-Ranges", "bytes");
                 ("Content-Length", "100");
                 ("Content-Type", "video/mp4") ])
       /\ List.concat body = byte_range sample_file 100 199.
Proof.
  intro db.
  apply (stream_by_id_serves db sample_fs 1
           (video_row_of 1 "a" "Title a"
              (downloaded_data sample_filename "2024-01-01T00:00:00"
                 "https://www.youtube.com/watch?v=a" (VBool true)
                 (sample_info "a")))
           "media/video.mp4" sample_file 100 199).
  - reflexivity.
  - reflexivity.
  - reflexivity.
  - reflexivity.
  - lia.
  - vm_compute. reflexivity.
Defined.

(* ------------------------------------------------------------------ *)
(** ** Thumbnails *)
(* ------------------------------------------------------------------ *)

Lemma first_thumbnail_exists (sibling : string -> string -> string)
      (fs : filesystem) (video_path : string) (extensions : list string)
      (thumb_path : string) :
  first_thumbnail sibling fs video_path extensions = Some thumb_path ->
  exists ext content,
    In ext extensions /\ thumb_path = sibling video_path ext
    /\ fs thumb_path = Some content.
Proof.
  induction extensions as [|ext rest IH]; cbn; [discriminate|].
  destruct (fs (sibling video_path ext)) as [content|] eqn:E.
  - intros [= <-]. exists ext, content. auto.
  - intros H. destruct (IH H) as (ext' & content & Hin & Hp & Hfs).
    exists ext', content. auto.
Qed.

(** X18. [get_thumbnail] answers with a file that exists, beside the
    video file of the row and named after it with one of the three
    extensions, or with a 404; it never answers 500, whatever the
    catalog and the disk hold. *)
Theorem get_thumbnail_file_or_404
        (sibling : string -> string -> string)
        (db : database) (fs : filesystem) (video_id : Z) :
  get_thumbnail sibling db fs video_id = Raise (HTTPException 404)
  \/ exists row video_path ext content,
       find (fun r => v_id r =? video_id) (videos db) = Some row
       /\ v_file_path row = Some video_path
       /\ In ext [".jpg"; ".webp"; ".png"]
       /\ fs (sibling video_path ext) = Some content
       /\ get_thumbnail sibling db fs video_id = Ok (sibling video_path ext).
Proof.
  unfold get_thumbnail. change (execute sql_select_file_path) with (Ok tt).
  cbn [rbind].
  destruct (find _ (videos db)) as [row|] eqn:Erow; [|now left].
  destruct (v_file_path row) as [video_path|] eqn:Epath; [|now left].
  destruct (nonempty video_path); [|now left].
  destruct (first_thumbnail sibling fs video_path [".jpg"; ".webp"; ".png"])
    as [thumb|] eqn:E; [|now left].
  right. destruct (first_thumbnail_exists _ _ _ _ _ E)
    as (ext & content & Hin & -> & Hfs).
  exists row, video_path, ext, content. auto.
Qed.

(** X19. The order of the extensions decides: beside the video file of
    the row, the [.jpg] is served when it exists, the [.webp] when there
    is no [.jpg], the [.png] when there is neither, and the answer is
    404 when none of the three exists. *)
Theorem get_thumbnail_order
        (sibling : string -> string -> string)
        (db : database) (fs : filesystem) (video_id : Z)
        (row : video_row) (video_path : string) :
  find (fun r => v_id r =? video_id) (videos db) = Some row ->
  v_file_path row = Some video_path ->
  nonempty video_path = true ->
  get_thumbnail sibling db fs video_id
  = match fs (sibling video_path ".jpg"),
          fs (sibling video_path ".webp"),
          fs (sibling video_path ".png") with
    | Some _, _, _ => Ok (sibling video_path ".jpg")
    | None, Some _, _ => Ok (sibling video_path ".webp")
    | None, None, Some _ => Ok (sibling video_path ".png")
    | None, None, None => Raise (HTTPException 404)
    end.
Proof.
  intros Hrow Hpath Hne. unfold get_thumbnail.
  change (execute sql_select_file_path) with (Ok tt). cbn [rbind].
  rewrite Hrow, Hpath, Hne. cbn [first_thumbnail].
  destruct (fs (sibling video_path ".jpg")); [reflexivity|].
  destruct (fs (sibling video_path ".webp")); [reflexivity|].
  destruct (fs (sibling video_path ".png")); reflexivity.
Qed.

Lemma get_thumbnail_order_witness :
  let db := snd (download_video sample_extract sample_mkdir sample_filename
                   "2024-01-01T00:00:00" "https://www.youtube.com/watch?v=a"
                   None None empty_database) in
  let sibling := fun (p ext : string) => ("media/video" ++ ext)%string in
  let fs : filesystem :=
    fun p => if String.eqb p "media/video.webp" then Some [x00]
             else if String.eqb p "media/video.png" then Some [x01]
             else None in
  get_thumbnail sibling db fs 1
  = match fs (sibling "media/video.mp4" ".jpg"),
          fs (sibling "media/video.mp4" ".webp"),
          fs (sibling "media/video.mp4" ".png") with
    | Some _, _, _ => Ok (sibling "media/video.mp4" ".jpg")
    | None, Some _, _ => Ok (sibling "media/video.mp4" ".webp")
    | None, None, Some _ => Ok (sibling "media/video.mp4" ".png")
    | None, None, None => Raise (HTTPException 404)
    end.
Proof.
  intros db sibling fs.
  apply (get_thumbnail_order sibling db fs 1
           (video_row_of 1 "a" "Title a"
              (downloaded_data sample_filename "2024-01-01T00:00:00"
                 "https://www.youtube.com/watch?v=a" (VBool true)
                 (sample_info "a")))
           "media/video.mp4");
    reflexivity.
Defined.

(* ------------------------------------------------------------------ *)
(** ** Statistics and search *)
(* ------------------------------------------------------------------ *)

Lemma filter_length_le {A : Type} (p : A -> bool) (l : list A) :
  (List.length (filter p l) <= List.length l)%nat.
Proof.
  induction l as [|a l IH]; cbn; [lia|]. destruct (p a); cbn; lia.
Qed.

Lemma filter_length_implies {A : Type} (p q : A -> bool) (l : list A) :
  (forall a, p a = true -> q a = true) ->
  (List.length (filter p l) <= List.length (filter q l))%nat.
Proof.
  intros Hpq. induction l as [|a l IH]; cbn; [lia|].
  destruct (p a) eqn:Ep.
  - rewrite (Hpq a Ep). cbn. lia.
  - destruct (q a); cbn; lia.
Qed.

Lemma filter_length_disjoint {A : Type} (p q : A -> bool) (l : list A) :
  (forall a, p a = true -> q a = false) ->
  (List.length (filter p l) + List.length (filter q l) <= List.length l)%nat.
Proof.
  intros Hpq. induction l as [|a l IH]; cbn; [lia|].
  destruct (p a) eqn:Ep.
  - rewrite (Hpq a Ep). cbn. lia.
  - destruct (q a); cbn; lia.
Qed.

(** The SUM goes through exactly when no value of its accumulator
    leaves the 64 bits, and then it is the sum of the known durations,
    from the accumulator on. *)
Lemma sum_duration_from_spec (rows : list video_row) (acc : option Z) :
  let base := match acc with Some a => a | None => 0 end in
  if forallb int64 (partial_sums base rows)
  then exists total,
         sum_duration_from acc rows = Ok total
         /\ match total with Some t => t | None => 0 end
            = base + known_total rows
  else sum_duration_from acc rows = Raise OperationalError.
Proof.
  revert acc. induction rows as [|r rows IH]; intros acc base.
  - cbn. exists acc. split; [reflexivity|]. subst base. lia.
  - cbn [partial_sums sum_duration_from known_total fold_right].
    destruct (v_duration r) as [d|]; [|exact (IH acc)].
    assert (Htotal : match acc with Some a => a + d | None => 0 + d end
                     = base + d) by (subst base; now destruct acc).
    cbn zeta. rewrite Htotal. cbn [forallb].
    destruct (int64 (base + d)); cbn [andb]; [|reflexivity].
    specialize (IH (Some (base + d))). cbn zeta in IH.
    destruct (forallb int64 (partial_sums (base + d) rows)); [|exact IH].
    destruct IH as (total & Hrun & Hsum). exists total.
    split; [exact Hrun|]. fold (known_total rows). lia.
Qed.

(** X20. [get_stats] returns unless the SUM of the durations overflows.
    When no partial sum of the known durations, taken in the order of
    the rows, leaves the signed 64-bit range, it returns; its two video
    counts look at [is_short] only, not at the status: each is at least
    the number of rows that [GET /api/videos] lists for that flag,
    together they are at most the number of rows (rows with [NULL] in
    [is_short] are in neither), and the total duration is the sum of
    the durations that are known, 0 when there is none.  When a partial
    sum leaves the range, the answer is a 500. *)
Theorem get_stats_counts
        (float : Type) (round_hours : Z -> float) (db : database) :
  if forallb int64 (partial_sums 0 (videos db))
  then
    exists st,
      get_stats float round_hours db = Ok st
      /\ total_videos float st + total_shorts float st
         <= Z.of_nat (List.length (videos db))
      /\ (forall flag rows,
            get_videos flag db = Ok rows ->
            Z.of_nat (List.length rows)
            <= if flag then total_shorts float st else total_videos float st)
      /\ total_playlists float st = Z.of_nat (List.length (playlists db))
      /\ total_duration_seconds float st = known_total (videos db)
      /\ total_duration_hours float st
         = round_hours (total_duration_seconds float st)
  else get_stats float round_hours db = Raise (HTTPException 500).
Proof.
  pose proof (sum_duration_from_spec (videos db) None) as Hsum.
  cbn zeta in Hsum. unfold get_stats.
  change (execute sql_count_videos) with (Ok tt).
  change (execute sql_count_shorts) with (Ok tt).
  change (execute sql_count_playlists) with (Ok tt).
  change (execute sql_sum_duration) with (Ok tt).
  cbn [rbind]. unfold sum_duration.
  destruct (forallb int64 (partial_sums 0 (videos db)));
    [|rewrite Hsum; reflexivity].
  destruct Hsum as (total & -> & Htotal).
  eexists. split; [reflexivity|]. cbn. repeat split.
  - pose proof (filter_length_disjoint (is_short_is false) (is_short_is true)
                  (videos db)) as H.
    assert (Hdis : forall a, is_short_is false a = true ->
                             is_short_is true a = false).
    { intros a. unfold is_short_is. destruct (v_is_short a) as [z|]; [|easy].
      destruct (Z.eqb_spec z 0) as [->|]; [reflexivity | discriminate]. }
    specialize (H Hdis). lia.
  - intros flag rows [= <-].
    pose proof (filter_length_implies
                  (fun r => completed r && is_short_is flag r)
                  (is_short_is flag) (videos db)) as H.
    assert (Himp : forall a, completed a && is_short_is flag a = true ->
                             is_short_is flag a = true).
    { intros a Ha. now apply andb_true_iff in Ha. }
    specialize (H Himp). destruct flag; lia.
  - rewrite Htotal. lia.
Qed.

(** Both cases, run: two rows of 45 seconds, and a row of 2^63 - 1
    seconds followed by a row of 1, the sum of which overflows. *)
Example get_stats_run :
  let row := fun (id : Z) (ext : string) (d : Z) =>
    mk_video_row id ext "t" None None (Some d) None None (Some 0) None None
                 None None (Some "completed") in
  let db := fun rows => mk_database rows 2 [] 0 [] 0 [] in
  get_stats unit (fun _ => tt) (db [row 1 "a" 45; row 2 "b" 45])
  = Ok (mk_stats unit 2 0 0 90 tt)
  /\ get_stats unit (fun _ => tt) (db [row 1 "a" (2 ^ 63 - 1); row 2 "b" 1])
     = Raise (HTTPException 500).
Proof. split; reflexivity. Qed.

(** X21. [GET /api/search] answers every query with a 500: the handler
    turns the exception of [search_videos] into an internal error, and
    no search ever returns a row. *)
Theorem api_search_always_500 (q : string) (db : database) :
  api_search_videos q db = Raise (HTTPException 500).
Proof.
  unfold api_search_videos, search_videos.
  change (execute sql_search_videos) with (@Raise unit OperationalError).
  reflexivity.
Qed.

(* ------------------------------------------------------------------ *)
(** ** The download endpoints *)
(* ------------------------------------------------------------------ *)

Lemma fold_max_le (ids : list Z) (bound : Z) :
  0 <= bound -> (forall x, In x ids -> x <= bound) ->
  fold_right Z.max 0 ids <= bound.
Proof.
  intros Hb. induction ids as [|y ids IH]; cbn; intros H; [exact Hb|].
  apply Z.max_lub; [apply H; now left | apply IH; intros x Hx; apply H; now right].
Qed.

Lemma next_rowid_positive (seq : Z) (ids : list Z) : 0 < next_rowid seq ids.
Proof.
  unfold next_rowid.
  assert (0 <= fold_right Z.max 0 ids) by (induction ids; cbn; lia). lia.
Qed.

Lemma next_rowid_after_save (db : database) (ext title : string)
      (vd : video_data) :
  let rowid := next_rowid (videos_seq db) (map v_id (videos db)) in
  next_rowid
    rowid
    (map v_id
         (filter (fun r => negb (String.eqb (v_video_id r) ext)) (videos db)
          ++ [video_row_of rowid ext title vd]))
  = rowid + 1.
Proof.
  intros rowid. unfold next_rowid at 1. f_equal. apply Z.max_l.
  apply fold_max_le.
  - pose proof (next_rowid_positive (videos_seq db) (map v_id (videos db))).
    fold rowid in H. lia.
  - intros x Hx. rewrite map_app in Hx. apply in_app_or in Hx as [Hx|[<-|[]]].
    + apply in_map_iff in Hx as (r & <- & Hr). apply filter_In in Hr as [Hr _].
      pose proof (next_rowid_fresh (videos_seq db) (map v_id (videos db))
                    (v_id r) (in_map v_id _ _ Hr)).
      fold rowid in H. lia.
    + cbn. lia.
Qed.

(** X22. One request, two ingestions.  When the extractor retrieves the
    URL with metadata that can be processed (the probed record can be
    prepared and its output directory made, the downloaded record
    carries id and title and integers within 64 bits),
    [POST /api/download-video] answers with the success of its own run, and the background task it
    registered ingests the URL again: afterwards the one row of the
    video has the rowid that follows the one of the first run, no row
    has the rowid of the first run, and the tag table has grown by two
    copies of the tags, the first copy pointing at the rowid of the
    first run. *)
Theorem api_download_video_twice
        (extract_info : string -> bool -> string + info)
        (mkdir : string -> string -> result unit)
        (prepare_filename : info -> string) (now : string)
        (url : string) (tgs : option (list string)) (db : database)
        (probe i : info) (ext title : string) :
  extract_info url false = inr probe ->
  probe_well_formed mkdir probe = true ->
  extract_info url true = inr i ->
  info_id i = Val ext -> info_title i = Val title ->
  storable i = true ->
  exists flag db2 tags1 tags2,
    let id1 := next_rowid (videos_seq db) (map v_id (videos db)) in
    api_download_video extract_info mkdir prepare_filename now url tgs db
    = (Ok (mk_download_response
             "success" ("Successfully downloaded: " ++ title)%string),
       db2)
    /\ filter (fun r => String.eqb (v_video_id r) ext) (videos db2)
       = [video_row_of (id1 + 1) ext title
            (downloaded_data prepare_filename now url flag i)]
    /\ (forall r, In r (videos db2) -> v_id r <> id1)
    /\ tags db2 = tags db ++ tags1 ++ tags2
    /\ map (fun r => (t_video_id r, t_tag r)) tags1
       = map (pair id1) (all_tags tgs)
    /\ map (fun r => (t_video_id r, t_tag r)) tags2
       = map (pair (id1 + 1)) (all_tags tgs).
Proof.
  intros Hprobe Hwf Hdl Hid Ht Hst.
  assert (Hrun : forall d,
             exists flag rows seq',
               is_youtube_short probe = Ok flag
               /\ download_video extract_info mkdir prepare_filename now url tgs None d
                  = (Ok (VideoSuccess (Some ext) (Some title) flag
                           (next_rowid (videos_seq d) (map v_id (videos d)))),
                     mk_database
                       (filter (fun r => negb (String.eqb (v_video_id r) ext))
                               (videos d)
                        ++ [video_row_of
                              (next_rowid (videos_seq d) (map v_id (videos d)))
                              ext title
                              (downloaded_data prepare_filename now url flag i)])
                       (next_rowid (videos_seq d) (map v_id (videos d)))
                       (tags d ++ rows) seq'
                       (playlists d) (playlists_seq d) (playlist_items d))
               /\ map (fun r => (t_video_id r, t_tag r)) rows
                  = map (pair (next_rowid (videos_seq d) (map v_id (videos d))))
                        (all_tags tgs)).
  { intros d. unfold download_video. rewrite Hprobe.
    destruct (download_video_prepared mkdir probe Hwf)
      as (flag & Hflag & Hprep).
    rewrite Hprep, Hdl.
    fold (downloaded_data prepare_filename now url flag i).
    destruct (save_to_database_ok
                (downloaded_data prepare_filename now url flag i)
                tgs None d ext title)
      as (rows & seq' & Hsave & Hids & Htags & _).
    { cbn. now rewrite Hid. }
    { cbn. now rewrite Ht. }
    { exact (downloaded_data_bindable prepare_filename now url probe i flag
               Hflag Hst). }
    cbn zeta in Hsave, Hids. rewrite Hsave, Hid, Ht. cbn [get].
    exists flag, rows, seq'. repeat split; trivial.
    now apply tag_rows_pairs. }
  destruct (Hrun db) as (flag & rows1 & seq1 & Hflag & Hrun1 & Hpairs1).
  set (id1 := next_rowid (videos_seq db) (map v_id (videos db))) in *.
  set (db1 := mk_database _ _ _ _ _ _ _) in Hrun1.
  destruct (Hrun db1) as (flag' & rows2 & seq2 & Hflag' & Hrun2 & Hpairs2).
  rewrite Hflag in Hflag'. injection Hflag' as <-.
  assert (Hid2 : next_rowid (videos_seq db1) (map v_id (videos db1)) = id1 + 1).
  { subst db1. cbn [videos videos_seq].
    apply (next_rowid_after_save db ext title). }
  rewrite Hid2 in Hrun2, Hpairs2.
  exists flag, (snd (download_video extract_info mkdir prepare_filename now url tgs
                                    None db1)), rows1, rows2.
  cbn zeta. unfold api_download_video. rewrite Hrun1. cbn [format_str].
  split; [reflexivity|]. rewrite Hrun2. cbn [snd videos tags].
  repeat split; trivial.
  - rewrite filter_app, filter_other_ids. cbn. now rewrite String.eqb_refl.
  - intros r Hr. apply in_app_or in Hr as [Hr|[<-|[]]]; [|cbn; lia].
    apply filter_In in Hr as [Hr Hneq]. subst db1. cbn [videos] in Hr.
    apply in_app_or in Hr as [Hr|[<-|[]]].
    + apply filter_In in Hr as [Hr _].
      pose proof (next_rowid_fresh (videos_seq db) (map v_id (videos db))
                    (v_id r) (in_map v_id _ _ Hr)).
      fold id1 in H. lia.
    + cbn in Hneq. rewrite String.eqb_refl in Hneq. discriminate.
  - subst db1. cbn [tags]. now rewrite app_assoc.
Qed.

Lemma api_download_video_twice_witness :
  exists flag db2 tags1 tags2,
    let id1 := next_rowid (videos_seq empty_database)
                          (map v_id (videos empty_database)) in
    api_download_video sample_extract sample_mkdir sample_filename "2024-01-01T00:00:00"
                       "https://www.youtube.com/watch?v=a" (Some ["music"])
                       empty_database
    = (Ok (mk_download_response
             "success" ("Successfully downloaded: " ++ "Title a")%string),
       db2)
    /\ filter (fun r => String.eqb (v_video_id r) "a") (videos db2)
       = [video_row_of (id1 + 1) "a" "Title a"
            (downloaded_data sample_filename "2024-01-01T00:00:00"
               "https://www.youtube.com/watch?v=a" flag (sample_info "a"))]
    /\ (forall r, In r (videos db2) -> v_id r <> id1)
    /\ tags db2 = tags empty_database ++ tags1 ++ tags2
    /\ map (fun r => (t_video_id r, t_tag r)) tags1
       = map (pair id1) (all_tags (Some ["music"]))
    /\ map (fun r => (t_video_id r, t_tag r)) tags2
       = map (pair (id1 + 1)) (all_tags (Some ["music"])).
Proof.
  apply (api_download_video_twice
           sample_extract sample_mkdir sample_filename "2024-01-01T00:00:00"
           "https://www.youtube.com/watch?v=a" (Some ["music"]) empty_database
           (sample_info "a") (sample_info "a") "a" "Title a");
    reflexivity.
Defined.

(** The same request, run on the empty catalog: the row has rowid 2 and
    the tags of rowid 1 are left behind. *)
Example api_download_video_run :
  let db2 :=
    snd (api_download_video sample_extract sample_mkdir sample_filename
           "2024-01-01T00:00:00" "https://www.youtube.com/watch?v=a"
           (Some ["music"]) empty_database) in
  map v_id (videos db2) = [2]
  /\ tags db2 = [mk_tag_row 1 1 "YouTube"; mk_tag_row 2 1 "music";
                 mk_tag_row 3 2 "YouTube"; mk_tag_row 4 2 "music"].
Proof. split; reflexivity. Qed.

(** X23. [POST /api/download-playlist] reports a failed listing as a
    success: when the extractor cannot list the playlist, the answer is
    the status ['success'] with the message
    ['Playlist download started: None'], and the catalog is untouched. *)
Theorem api_download_playlist_listing_failure
        (extract_info : string -> bool -> string + info)
        (extract_flat : string -> string + playlist_info)
        (mkdir : string -> string -> result unit)
        (prepare_filename : info -> string) (now : string)
        (url : string) (tgs : option (list string)) (db : database)
        (message : string) :
  extract_flat url = inl message ->
  api_download_playlist extract_info extract_flat mkdir prepare_filename now
                        url tgs db
  = (Ok (mk_download_response "success" "Playlist download started: None"), db).
Proof.
  intros Hflat. unfold api_download_playlist, download_playlist.
  rewrite Hflat. reflexivity.
Qed.

Lemma api_download_playlist_listing_failure_witness :
  api_download_playlist sample_extract
                        (fun _ => inl "ERROR: The playlist does not exist")
                        sample_mkdir sample_filename "2024-01-01T00:00:00"
                        "https://www.youtube.com/playlist?list=none" None
                        empty_database
  = (Ok (mk_download_response "success" "Playlist download started: None"),
     empty_database).
Proof.
  apply (api_download_playlist_listing_failure
           sample_extract (fun _ => inl "ERROR: The playlist does not exist")
           sample_mkdir sample_filename _ _ None empty_database
           "ERROR: The playlist does not exist").
  reflexivity.
Defined.

(** Whatever happens inside, [POST /api/download-playlist] answers with
    the status ['success'] or with a 500: entries that fail, and a
    listing that fails, never show in the answer. *)
Lemma api_download_playlist_answers
        (extract_info : string -> bool -> string + info)
        (extract_flat : string -> string + playlist_info)
        (mkdir : string -> string -> result unit)
        (prepare_filename : info -> string) (now : string)
        (url : string) (tgs : option (list string)) (db : database) :
  fst (api_download_playlist extract_info extract_flat mkdir prepare_filename now
                             url tgs db) = Raise (HTTPException 500)
  \/ exists message,
       fst (api_download_playlist extract_info extract_flat mkdir prepare_filename
                                  now url tgs db)
       = Ok (mk_download_response "success" message).
Proof.
  unfold api_download_playlist.
  destruct (download_playlist extract_info extract_flat mkdir prepare_filename now
                              url tgs db) as [[r|e] db1]; cbn [fst].
  - right. eexists. reflexivity.
  - now left.
Qed.
